(** * OISP sensor: the eBPF capture programs

    A shallow embedding of [src/bpf/ssl_monitor.bpf.c] and
    [src/bpf/process_monitor.bpf.c].  Each handler is a function from the
    context it runs in (the current task, the tracepoint record) and the
    state of the BPF maps to the new state of the maps.  The kernel helpers
    the handlers call are modelled in [Bpf]. *)

From Stdlib Require Import ZArith List Lia Bool.
From Stdlib.Strings Require Import Byte.
From stdpp Require Import gmap list.

Import ListNotations.
Local Open Scope Z_scope.

(** ** Machine integers *)

Definition to_u32 (x : Z) : Z := x mod 2 ^ 32.
Definition to_u8 (x : Z) : Z := x mod 2 ^ 8.
(** [(__s32) x] for a value already reduced to 32 bits. *)
Definition to_s32 (x : Z) : Z :=
  let u := to_u32 x in if u <? 2 ^ 31 then u else u - 2 ^ 32.

Definition round_up (x a : Z) : Z := (x + a - 1) / a * a.

(** ** Kernel helpers *)

Module Bpf.

Definition NUL : byte := x00.
Definition is_nul (b : byte) : bool := Byte.eqb b NUL.

Definition EFAULT : Z := 14.

(** An address space: [None] where an access faults. *)
Definition mem : Type := Z -> option byte.

(** The bytes of an array seen as the memory at offsets [0 ..]. *)
Definition array_mem (l : list byte) : mem :=
  fun a => if a <? 0 then None else l !! Z.to_nat a.

(** [n] bytes starting at [addr], or [None] when one of them faults. *)
Fixpoint read_bytes (m : mem) (addr : Z) (n : nat) : option (list byte) :=
  match n with
  | O => Some []
  | S n' =>
      match m addr with
      | None => None
      | Some b =>
          match read_bytes m (addr + 1) n' with
          | None => None
          | Some bs => Some (b :: bs)
          end
      end
  end.

(** The string at [addr], without its terminator, cut after [n] bytes. *)
Fixpoint read_cstr (m : mem) (addr : Z) (n : nat) : option (list byte) :=
  match n with
  | O => Some []
  | S n' =>
      match m addr with
      | None => None
      | Some b =>
          if is_nul b then Some []
          else match read_cstr m (addr + 1) n' with
               | None => None
               | Some bs => Some (b :: bs)
               end
      end
  end.

(** The bytes of [l] before its first NUL. *)
Fixpoint cstr (l : list byte) : list byte :=
  match l with
  | [] => []
  | b :: l' => if is_nul b then [] else b :: cstr l'
  end.

(** Writing [bs] at the start of the array [dst]; the rest of [dst] stays. *)
Definition store_bytes (bs dst : list byte) : list byte :=
  bs ++ drop (length bs) dst.

(** [bpf_probe_read_user(dst, size, src)]: 0 and the bytes copied, or
    [-EFAULT] with the destination zeroed. *)
Definition bpf_probe_read_user (m : mem) (dst : list byte) (size : Z) (src : Z)
  : Z * list byte :=
  match read_bytes m src (Z.to_nat size) with
  | Some bs => (0, store_bytes bs dst)
  | None => (- EFAULT, store_bytes (repeat NUL (Z.to_nat size)) dst)
  end.

(** [bpf_probe_read_str(dst, size, src)]: the helper reads the source
    byte by byte until it has read a NUL or [size] bytes, then puts a NUL
    over the last byte read: the destination gets at most [size - 1] bytes
    of the string and a terminator, and the count of bytes written is
    returned.  When one of the bytes read faults, the destination is
    zeroed. *)
Definition bpf_probe_read_str (m : mem) (dst : list byte) (size : Z) (src : Z)
  : Z * list byte :=
  if size <=? 0 then (0, dst)
  else match read_cstr m src (Z.to_nat size) with
       | Some s =>
           let s' := take (Z.to_nat (size - 1)) s in
           (Z.of_nat (length s') + 1, store_bytes (s' ++ [NUL]) dst)
       | None => (- EFAULT, store_bytes (repeat NUL (Z.to_nat size)) dst)
       end.

(** [bpf_get_current_comm(buf, size)]: the task's command name, cut to
    [size - 1] bytes and padded with NUL up to [size]. *)
Definition bpf_get_current_comm (task_comm : list byte) (buf : list byte) (size : Z)
  : list byte :=
  let s := take (Z.to_nat (size - 1)) (cstr task_comm) in
  store_bytes (s ++ repeat NUL (Z.to_nat size - length s)) buf.

(** A string field is terminated within its capacity when one of its
    first [cap] bytes is NUL. *)
Definition nul_terminated (cap : Z) (field : list byte) : bool :=
  existsb is_nul (take (Z.to_nat cap) field).

(** *** Ring buffer ([BPF_MAP_TYPE_RINGBUF]) *)

Definition BPF_RINGBUF_HDR_SZ : Z := 8.

Section Ringbuf.
Context {T : Type}.

Inductive rb_record : Type :=
| Submitted (e : T)
| Discarded.

(** [rb_stale pos] is what the memory at [pos] holds when it is handed
    out: reserving does not clear it. *)
Record ringbuf : Type := mk_ringbuf {
  rb_max_entries : Z;
  rb_consumer_pos : Z;
  rb_producer_pos : Z;
  rb_stale : Z -> T;
  rb_records : list rb_record
}.

Definition bpf_ringbuf_reserve (rb : ringbuf) (size : Z) : option (T * ringbuf) :=
  let len := round_up (size + BPF_RINGBUF_HDR_SZ) 8 in
  if rb_max_entries rb <? len then None
  else if rb_max_entries rb - 1 <? rb_producer_pos rb + len - rb_consumer_pos rb
  then None
  else Some (rb_stale rb (rb_producer_pos rb),
             {| rb_max_entries := rb_max_entries rb;
                rb_consumer_pos := rb_consumer_pos rb;
                rb_producer_pos := rb_producer_pos rb + len;
                rb_stale := rb_stale rb;
                rb_records := rb_records rb |}).

Definition rb_push (r : rb_record) (rb : ringbuf) : ringbuf :=
  {| rb_max_entries := rb_max_entries rb;
     rb_consumer_pos := rb_consumer_pos rb;
     rb_producer_pos := rb_producer_pos rb;
     rb_stale := rb_stale rb;
     rb_records := rb_records rb ++ [r] |}.

Definition bpf_ringbuf_submit (e : T) (rb : ringbuf) : ringbuf :=
  rb_push (Submitted e) rb.

Definition bpf_ringbuf_discard (rb : ringbuf) : ringbuf :=
  rb_push Discarded rb.

(** The events the consumer sees, in commit order. *)
Fixpoint committed_of (rs : list rb_record) : list T :=
  match rs with
  | [] => []
  | Submitted e :: rs' => e :: committed_of rs'
  | Discarded :: rs' => committed_of rs'
  end.

Definition committed (rb : ringbuf) : list T := committed_of (rb_records rb).

(** An empty ring of [n] bytes over memory holding [stale]. *)
Definition rb_new (n : Z) (stale : Z -> T) : ringbuf :=
  {| rb_max_entries := n; rb_consumer_pos := 0; rb_producer_pos := 0;
     rb_stale := stale; rb_records := [] |}.
End Ringbuf.
Arguments rb_record : clear implicits.
Arguments ringbuf : clear implicits.

(** *** Hash map ([BPF_MAP_TYPE_HASH]) with [u64] keys *)

Section Hash.
Context {V : Type}.

Definition bpf_map_lookup_elem (m : gmap Z V) (key : Z) : option V := m !! key.

(** [BPF_ANY]: an existing key is overwritten; a new key is refused
    once the map holds [max_entries] entries. *)
Definition bpf_map_update_elem (max_entries : Z) (m : gmap Z V) (key : Z) (value : V)
  : gmap Z V :=
  match m !! key with
  | Some _ => <[key := value]> m
  | None => if Z.of_nat (size m) <? max_entries then <[key := value]> m else m
  end.

Definition bpf_map_delete_elem (m : gmap Z V) (key : Z) : gmap Z V := delete key m.

(** Number of entries resident under [key]. *)
Definition entry_count (m : gmap Z V) (key : Z) : nat :=
  match m !! key with Some _ => 1%nat | None => 0%nat end.
End Hash.

(** The thread a handler runs on: what [bpf_get_current_pid_tgid],
    [bpf_get_current_uid_gid], [bpf_ktime_get_ns], [bpf_get_current_comm]
    and [bpf_get_current_task] give, and the memory a probe read sees. *)
Record task : Type := mk_task {
  pid_tgid : Z;
  uid_gid : Z;
  ktime_ns : Z;
  task_comm : list byte;
  real_parent_tgid : Z;
  task_exit_code : Z;
  task_mem : mem
}.

End Bpf.

(** ** [ssl_monitor.bpf.c] *)

Module SslMonitor.
Import Bpf.

Definition MAX_DATA_SIZE : Z := 16384.

Definition SSL_READ : Z := 0.
Definition SSL_WRITE : Z := 1.

Record ssl_data_event : Type := mk_ssl_data_event {
  timestamp_ns : Z;
  pid : Z;
  tid : Z;
  uid : Z;
  data_len : Z;
  type : Z;
  data : list byte;
  comm : list byte
}.

(** 8 + 4 * 4 + 1 + 16384 + 16 bytes, padded to the 8-byte alignment. *)
Definition sizeof_ssl_data_event : Z := 16432.
Definition sizeof_comm : Z := 16.

Definition events_max_entries : Z := 256 * 1024.
Definition args_max_entries : Z := 10240.

(** The three maps of the program. *)
Record state : Type := mk_state {
  events : ringbuf ssl_data_event;
  ssl_write_args : gmap Z Z;
  ssl_read_args : gmap Z Z
}.

Definition set_data (d : list byte) (e : ssl_data_event) : ssl_data_event :=
  {| timestamp_ns := timestamp_ns e; pid := pid e; tid := tid e; uid := uid e;
     data_len := data_len e; type := type e; data := d; comm := comm e |}.

Definition emit_ssl_event (t : task) (buf : Z) (len : Z) (ty : Z)
    (rb : ringbuf ssl_data_event) : Z * ringbuf ssl_data_event :=
  if (len <=? 0) || (MAX_DATA_SIZE <? len) then (0, rb)
  else
    match bpf_ringbuf_reserve rb sizeof_ssl_data_event with
    | None => (0, rb)
    | Some (slot, rb1) =>
        let pid_tgid := pid_tgid t in
        let uid_gid := uid_gid t in
        let event :=
          {| timestamp_ns := ktime_ns t;
             pid := to_u32 (Z.shiftr pid_tgid 32);
             tid := to_u32 pid_tgid;
             uid := to_u32 uid_gid;
             data_len := to_u32 len;
             type := to_u8 ty;
             data := data slot;
             comm := bpf_get_current_comm (task_comm t) (comm slot) sizeof_comm |} in
        let '(rc, data') :=
          bpf_probe_read_user (task_mem t) (data event)
            (Z.land len (MAX_DATA_SIZE - 1)) buf in
        if negb (rc =? 0) then (0, bpf_ringbuf_discard rb1)
        else (0, bpf_ringbuf_submit (set_data data' event) rb1)
    end.

Definition ssl_write_entry (t : task) (ssl buf num : Z) (st : state) : Z * state :=
  let pid_tgid := pid_tgid t in
  (0, {| events := events st;
         ssl_write_args :=
           bpf_map_update_elem args_max_entries (ssl_write_args st) pid_tgid buf;
         ssl_read_args := ssl_read_args st |}).

Definition ssl_write_return (t : task) (ret : Z) (st : state) : Z * state :=
  let pid_tgid := pid_tgid t in
  match bpf_map_lookup_elem (ssl_write_args st) pid_tgid with
  | None => (0, st)
  | Some buf =>
      let args' := bpf_map_delete_elem (ssl_write_args st) pid_tgid in
      let ev' :=
        if 0 <? ret then snd (emit_ssl_event t buf ret SSL_WRITE (events st))
        else events st in
      (0, {| events := ev'; ssl_write_args := args';
             ssl_read_args := ssl_read_args st |})
  end.

Definition ssl_read_entry (t : task) (ssl buf num : Z) (st : state) : Z * state :=
  let pid_tgid := pid_tgid t in
  (0, {| events := events st;
         ssl_write_args := ssl_write_args st;
         ssl_read_args :=
           bpf_map_update_elem args_max_entries (ssl_read_args st) pid_tgid buf |}).

Definition ssl_read_return (t : task) (ret : Z) (st : state) : Z * state :=
  let pid_tgid := pid_tgid t in
  match bpf_map_lookup_elem (ssl_read_args st) pid_tgid with
  | None => (0, st)
  | Some buf =>
      let args' := bpf_map_delete_elem (ssl_read_args st) pid_tgid in
      let ev' :=
        if 0 <? ret then snd (emit_ssl_event t buf ret SSL_READ (events st))
        else events st in
      (0, {| events := ev'; ssl_write_args := ssl_write_args st;
             ssl_read_args := args' |})
  end.

(** The two instrumented calls, and the handlers and store of each. *)
Inductive call_kind : Type := Read | Write.

Definition kind_type (k : call_kind) : Z :=
  match k with Read => SSL_READ | Write => SSL_WRITE end.

Definition args_of (k : call_kind) (st : state) : gmap Z Z :=
  match k with Read => ssl_read_args st | Write => ssl_write_args st end.

Definition ssl_entry (k : call_kind) (t : task) (ssl buf num : Z) (st : state)
  : Z * state :=
  match k with
  | Read => ssl_read_entry t ssl buf num st
  | Write => ssl_write_entry t ssl buf num st
  end.

Definition ssl_return (k : call_kind) (t : task) (ret : Z) (st : state) : Z * state :=
  match k with
  | Read => ssl_read_return t ret st
  | Write => ssl_write_return t ret st
  end.

(** A probe firing, and the state after a sequence of firings. *)
Inductive call : Type :=
| Entry (k : call_kind) (t : task) (ssl buf num : Z)
| Return (k : call_kind) (t : task) (ret : Z).

Definition step (st : state) (c : call) : state :=
  match c with
  | Entry k t ssl buf num => snd (ssl_entry k t ssl buf num st)
  | Return k t ret => snd (ssl_return k t ret st)
  end.

Definition run (cs : list call) (st : state) : state := fold_left step cs st.

(** One call of the library function as the probes see it: the entry
    firing with its buffer argument, then the return firing with the
    result. *)
Record cycle : Type := mk_cycle {
  c_entry_task : task;
  c_ssl : Z;
  c_buf : Z;
  c_num : Z;
  c_return_task : task;
  c_ret : Z
}.

Definition on_thread (key : Z) (c : cycle) : Prop :=
  pid_tgid (c_entry_task c) = key /\ pid_tgid (c_return_task c) = key.

Definition run_cycle (k : call_kind) (st : state) (c : cycle) : state :=
  snd (ssl_return k (c_return_task c) (c_ret c)
         (snd (ssl_entry k (c_entry_task c) (c_ssl c) (c_buf c) (c_num c) st))).

Definition run_cycles (k : call_kind) (cs : list cycle) (st : state) : state :=
  fold_left (run_cycle k) cs st.

Definition bounded_len (e : ssl_data_event) : Prop :=
  0 < data_len e <= MAX_DATA_SIZE.

(** *** Sample inputs *)

(** Thread 1235 of process 1234, run by uid 1000; its memory holds the
    byte ['A'] at the [MAX_DATA_SIZE] addresses from 4096 on and at the
    [MAX_DATA_SIZE] addresses from 65536 on, and nothing elsewhere. *)
Definition sample_mem : mem :=
  fun a =>
    if ((4096 <=? a) && (a <? 4096 + MAX_DATA_SIZE))
       || ((65536 <=? a) && (a <? 65536 + MAX_DATA_SIZE))
    then Some x41 else None.

Definition sample_task : task :=
  {| pid_tgid := Z.shiftl 1234 32 + 1235;
     uid_gid := Z.shiftl 1000 32 + 1000;
     ktime_ns := 5000;
     task_comm := [x63; x75; x72; x6c; x00; x00; x00; x00;
                   x00; x00; x00; x00; x00; x00; x00; x00];
     real_parent_tgid := 1;
     task_exit_code := 0;
     task_mem := sample_mem |}.

Definition zero_event : ssl_data_event :=
  {| timestamp_ns := 0; pid := 0; tid := 0; uid := 0; data_len := 0; type := 0;
     data := repeat x00 (Z.to_nat MAX_DATA_SIZE);
     comm := repeat x00 (Z.to_nat sizeof_comm) |}.

(** The maps as the loader creates them. *)
Definition init_state : state :=
  {| events := rb_new events_max_entries (fun _ => zero_event);
     ssl_write_args := ∅;
     ssl_read_args := ∅ |}.

(** [SSL_write(ssl, 4096, 10)] and [SSL_read(ssl, 65536, 10)] entered on
    the sample thread and not yet returned. *)
Definition sample_pending : state :=
  snd (ssl_read_entry sample_task 77 65536 10
         (snd (ssl_write_entry sample_task 77 4096 10 init_state))).

(** *** Observations on firings *)

Definition kind_eqb (k1 k2 : call_kind) : bool :=
  match k1, k2 with
  | Read, Read | Write, Write => true
  | _, _ => false
  end.

(** The thread and the call kind of a firing. *)
Definition call_key (c : call) : Z :=
  match c with
  | Entry _ t _ _ _ => pid_tgid t
  | Return _ t _ => pid_tgid t
  end.

Definition call_kind_of (c : call) : call_kind :=
  match c with
  | Entry k _ _ _ _ => k
  | Return k _ _ => k
  end.

(** The firings that pass the guards on the result: returns with
    [0 < ret <= MAX_DATA_SIZE]. *)
Definition may_emit (c : call) : bool :=
  match c with
  | Entry _ _ _ _ _ => false
  | Return _ _ ret => (0 <? ret) && (ret <=? MAX_DATA_SIZE)
  end.

Fixpoint count_may_emit (cs : list call) : nat :=
  match cs with
  | [] => 0%nat
  | c :: cs' => ((if may_emit c then 1 else 0) + count_may_emit cs')%nat
  end.

Definition known_type (e : ssl_data_event) : Prop :=
  type e = SSL_READ \/ type e = SSL_WRITE.

(** Bytes reserved in the ring and not yet consumed. *)
Definition rb_used {T : Type} (rb : ringbuf T) : Z :=
  rb_producer_pos rb - rb_consumer_pos rb.

(** The bytes one SSLDataEvent takes in the ring, header included. *)
Definition ssl_record_size : Z :=
  round_up (sizeof_ssl_data_event + BPF_RINGBUF_HDR_SZ) 8.

(** *** More sample inputs *)

(** A store holding [args_max_entries] entries, under the keys
    [0 .. args_max_entries - 1]. *)
Definition full_store : gmap Z Z :=
  list_to_map (map (fun i => (Z.of_nat i, 0)) (seq 0 (Z.to_nat args_max_entries))).

Definition sample_store_full : state :=
  {| events := events init_state;
     ssl_write_args := full_store;
     ssl_read_args := ∅ |}.

(** Fifteen writes of 10 bytes completed and not consumed, and a
    sixteenth entered. *)
Definition sample_ring_full : state :=
  snd (ssl_write_entry sample_task 77 4096 10
         (run_cycles Write
            (repeat (mk_cycle sample_task 77 4096 10 sample_task 10) 15)
            init_state)).

End SslMonitor.

(** ** [process_monitor.bpf.c] *)

Module ProcessMonitor.
Import Bpf.

Definition TASK_COMM_LEN : Z := 16.
Definition MAX_ARGS_LEN : Z := 256.
Definition MAX_PATH_LEN : Z := 256.

Definition PROC_EXEC : Z := 0.
Definition PROC_EXIT : Z := 1.
Definition PROC_FORK : Z := 2.

Record process_event : Type := mk_process_event {
  timestamp_ns : Z;
  pid : Z;
  ppid : Z;
  uid : Z;
  gid : Z;
  type : Z;
  exit_code : Z;
  comm : list byte;
  exe : list byte;
  args : list byte
}.

(** 8 + 4 * 4 + 1 (+ 3 of padding) + 4 + 16 + 256 + 256 bytes. *)
Definition sizeof_process_event : Z := 560.

Definition events_max_entries : Z := 256 * 1024.

(** The tracepoint records, with the fields the handlers read.
    [filename] is the address of the path in the memory of [task_mem]. *)
Record trace_event_raw_sched_process_exec : Type := mk_exec_ctx {
  filename : Z
}.

Record trace_event_raw_sched_process_template : Type := mk_template_ctx {
  template_comm : list byte;
  template_pid : Z
}.

Record trace_event_raw_sched_process_fork : Type := mk_fork_ctx {
  parent_comm : list byte;
  parent_pid : Z;
  child_comm : list byte;
  child_pid : Z
}.

Definition trace_exec (ctx : trace_event_raw_sched_process_exec) (t : task)
    (rb : ringbuf process_event) : Z * ringbuf process_event :=
  match bpf_ringbuf_reserve rb sizeof_process_event with
  | None => (0, rb)
  | Some (slot, rb1) =>
      let pid_tgid := pid_tgid t in
      let uid_gid := uid_gid t in
      let event :=
        {| timestamp_ns := ktime_ns t;
           pid := to_u32 (Z.shiftr pid_tgid 32);
           ppid := to_u32 (real_parent_tgid t);
           uid := to_u32 uid_gid;
           gid := to_u32 (Z.shiftr uid_gid 32);
           type := PROC_EXEC;
           exit_code := 0;
           comm := bpf_get_current_comm (task_comm t) (comm slot) TASK_COMM_LEN;
           exe := snd (bpf_probe_read_str (task_mem t) (exe slot) MAX_PATH_LEN
                         (filename ctx));
           args := args slot |} in
      (0, bpf_ringbuf_submit event rb1)
  end.

Definition trace_exit (ctx : trace_event_raw_sched_process_template) (t : task)
    (rb : ringbuf process_event) : Z * ringbuf process_event :=
  match bpf_ringbuf_reserve rb sizeof_process_event with
  | None => (0, rb)
  | Some (slot, rb1) =>
      let pid_tgid := pid_tgid t in
      let uid_gid := uid_gid t in
      let event :=
        {| timestamp_ns := ktime_ns t;
           pid := to_u32 (Z.shiftr pid_tgid 32);
           ppid := to_u32 (real_parent_tgid t);
           uid := to_u32 uid_gid;
           gid := to_u32 (Z.shiftr uid_gid 32);
           type := PROC_EXIT;
           exit_code := to_s32 (task_exit_code t);
           comm := bpf_get_current_comm (task_comm t) (comm slot) TASK_COMM_LEN;
           exe := exe slot;
           args := args slot |} in
      (0, bpf_ringbuf_submit event rb1)
  end.

Definition trace_fork (ctx : trace_event_raw_sched_process_fork) (t : task)
    (rb : ringbuf process_event) : Z * ringbuf process_event :=
  match bpf_ringbuf_reserve rb sizeof_process_event with
  | None => (0, rb)
  | Some (slot, rb1) =>
      let event :=
        {| timestamp_ns := ktime_ns t;
           pid := to_u32 (parent_pid ctx);
           ppid := to_u32 (parent_pid ctx);
           uid := uid slot;
           gid := gid slot;
           type := PROC_FORK;
           exit_code := to_s32 (child_pid ctx);
           comm := snd (bpf_probe_read_str (array_mem (parent_comm ctx)) (comm slot)
                          TASK_COMM_LEN 0);
           exe := exe slot;
           args := args slot |} in
      (0, bpf_ringbuf_submit event rb1)
  end.

(** One firing of one of the three tracepoints. *)
Inductive firing : Type :=
| Exec (ctx : trace_event_raw_sched_process_exec)
| Exit (ctx : trace_event_raw_sched_process_template)
| Fork (ctx : trace_event_raw_sched_process_fork).

Definition handle (f : firing) (t : task) (rb : ringbuf process_event)
  : Z * ringbuf process_event :=
  match f with
  | Exec ctx => trace_exec ctx t rb
  | Exit ctx => trace_exit ctx t rb
  | Fork ctx => trace_fork ctx t rb
  end.

(** *** Sample inputs *)

(** The memory holds a path of 300 bytes ['/'] and its terminator at
    8192. *)
Definition sample_kmem : mem :=
  fun a =>
    if (8192 <=? a) && (a <? 8492) then Some x2f
    else if a =? 8492 then Some x00 else None.

(** Process 100 run by uid 1000, gid 1001, child of process 1. *)
Definition sample_proc : task :=
  {| pid_tgid := Z.shiftl 100 32 + 100;
     uid_gid := Z.shiftl 1001 32 + 1000;
     ktime_ns := 5000;
     task_comm := [x62; x61; x73; x68; x00; x00; x00; x00;
                   x00; x00; x00; x00; x00; x00; x00; x00];
     real_parent_tgid := 1;
     task_exit_code := 256;
     task_mem := sample_kmem |}.

Definition sample_fork : trace_event_raw_sched_process_fork :=
  {| parent_comm := task_comm sample_proc; parent_pid := 100;
     child_comm := task_comm sample_proc; child_pid := 200 |}.

Definition sample_exit : trace_event_raw_sched_process_template :=
  {| template_comm := task_comm sample_proc; template_pid := 100 |}.

(** A slot whose bytes were last used for something else: no NUL in any
    string field, and arbitrary credentials. *)
Definition dirty_event : process_event :=
  {| timestamp_ns := 1; pid := 7; ppid := 7; uid := 4242; gid := 4343;
     type := PROC_EXEC; exit_code := 0;
     comm := repeat x41 (Z.to_nat TASK_COMM_LEN);
     exe := repeat x41 (Z.to_nat MAX_PATH_LEN);
     args := repeat x41 (Z.to_nat MAX_ARGS_LEN) |}.

Definition dirty_ring : ringbuf process_event :=
  rb_new events_max_entries (fun _ => dirty_event).

(** A task whose readable memory ends after 255 bytes ['/'] that start
    at 3841: the byte at 4096 faults. *)
Definition sample_edge_mem : mem :=
  fun a => if (3841 <=? a) && (a <? 4096) then Some x2f else None.

Definition sample_edge_proc : task :=
  {| pid_tgid := pid_tgid sample_proc;
     uid_gid := uid_gid sample_proc;
     ktime_ns := ktime_ns sample_proc;
     task_comm := task_comm sample_proc;
     real_parent_tgid := real_parent_tgid sample_proc;
     task_exit_code := task_exit_code sample_proc;
     task_mem := sample_edge_mem |}.

(** *** Sequences of firings *)

Definition run_firings (fs : list (firing * task)) (rb : ringbuf process_event)
  : ringbuf process_event :=
  fold_left (fun rb ft => snd (handle (fst ft) (snd ft) rb)) fs rb.

Definition known_kind (e : process_event) : Prop :=
  type e = PROC_EXEC \/ type e = PROC_EXIT \/ type e = PROC_FORK.

(** The bytes one ProcessEvent takes in the ring, header included. *)
Definition record_size : Z :=
  round_up (sizeof_process_event + BPF_RINGBUF_HDR_SZ) 8.

(** What the exec and exit handlers record of the current task. *)
Definition records_task (t : task) (e : process_event) : Prop :=
  pid e = pid_tgid t / 2 ^ 32
  /\ ppid e = real_parent_tgid t
  /\ uid e + 2 ^ 32 * gid e = uid_gid t
  /\ timestamp_ns e = ktime_ns t
  /\ cstr (comm e) = take 15 (cstr (task_comm t)).

(** The kind a firing gives its event, and the event of a firing: it has
    the kind of the firing and the time stamp of its task. *)
Definition firing_type (f : firing) : Z :=
  match f with
  | Exec _ => PROC_EXEC
  | Exit _ => PROC_EXIT
  | Fork _ => PROC_FORK
  end.

Definition event_of_firing (ft : firing * task) (e : process_event) : Prop :=
  type e = firing_type (fst ft) /\ timestamp_ns e = ktime_ns (snd ft).

(** The ProcessEvents an unconsumed ring has room for. *)
Definition ring_room : nat := Z.to_nat ((events_max_entries - 1) / record_size).

(** *** The ring as bytes

    The data area of the ring is [events_max_entries] bytes, cleared when
    the map is created and written by the three handlers only.  A record
    is the 8-byte header of the ring buffer followed by a
    [struct process_event]; positions are taken modulo the size of the
    area, which is mapped twice back to back, so a record is contiguous
    wherever it starts. *)

Definition byte_of_Z (x : Z) : byte :=
  match Byte.of_N (Z.to_N (x mod 256)) with
  | Some b => b
  | None => x00
  end.

Definition Z_of_byte (b : byte) : Z := Z.of_N (Byte.to_N b).

(** Little-endian integers of [n] bytes. *)
Fixpoint le_bytes (n : nat) (x : Z) : list byte :=
  match n with
  | O => []
  | S n' => byte_of_Z x :: le_bytes n' (x / 256)
  end.

Fixpoint le_value (bs : list byte) : Z :=
  match bs with
  | [] => 0
  | b :: bs' => Z_of_byte b + 256 * le_value bs'
  end.

Definition ring_mem : Type := Z -> byte.

Definition ring_byte (m : ring_mem) (pos : Z) : byte := m (pos mod events_max_entries).

Definition ring_read (m : ring_mem) (pos : Z) (n : nat) : list byte :=
  map (fun i => ring_byte m (pos + Z.of_nat i)) (seq 0 n).

Definition ring_write (bs : list byte) (pos : Z) (m : ring_mem) : ring_mem :=
  fun a =>
    match bs !! Z.to_nat ((a - pos) mod events_max_entries) with
    | Some b => b
    | None => m a
    end.

(** Offsets of the fields in [struct process_event]; [type] is followed
    by three bytes of padding. *)
Definition off_timestamp_ns : Z := 0.
Definition off_pid : Z := 8.
Definition off_ppid : Z := 12.
Definition off_uid : Z := 16.
Definition off_gid : Z := 20.
Definition off_type : Z := 24.
Definition off_padding : Z := 25.
Definition off_exit_code : Z := 28.
Definition off_comm : Z := 32.
Definition off_exe : Z := 48.
Definition off_args : Z := 304.

(** The event the memory of the record at [pos] holds. *)
Definition slot_at (m : ring_mem) (pos : Z) : process_event :=
  let d := pos + BPF_RINGBUF_HDR_SZ in
  {| timestamp_ns := le_value (ring_read m (d + off_timestamp_ns) 8);
     pid := le_value (ring_read m (d + off_pid) 4);
     ppid := le_value (ring_read m (d + off_ppid) 4);
     uid := le_value (ring_read m (d + off_uid) 4);
     gid := le_value (ring_read m (d + off_gid) 4);
     type := le_value (ring_read m (d + off_type) 1);
     exit_code := to_s32 (le_value (ring_read m (d + off_exit_code) 4));
     comm := ring_read m (d + off_comm) (Z.to_nat TASK_COMM_LEN);
     exe := ring_read m (d + off_exe) (Z.to_nat MAX_PATH_LEN);
     args := ring_read m (d + off_args) (Z.to_nat MAX_ARGS_LEN) |}.

(** The bytes of a committed record: the header (the length of the
    record, then the page offset the kernel keeps there), the integer
    fields, the padding as it was, and the three strings. *)
Definition record_bytes (pg_off : Z) (e : process_event) (padding : list byte)
  : list byte :=
  (le_bytes 4 sizeof_process_event ++ le_bytes 4 pg_off
   ++ le_bytes 8 (timestamp_ns e) ++ le_bytes 4 (pid e) ++ le_bytes 4 (ppid e)
   ++ le_bytes 4 (uid e) ++ le_bytes 4 (gid e) ++ le_bytes 1 (type e)
   ++ padding ++ le_bytes 4 (exit_code e))
  ++ comm e ++ exe e ++ args e.

Record ring_state : Type := mk_ring_state {
  rs_mem : ring_mem;
  rs_ring : ringbuf process_event
}.

Definition with_stale (stale : Z -> process_event) (rb : ringbuf process_event)
  : ringbuf process_event :=
  {| rb_max_entries := rb_max_entries rb;
     rb_consumer_pos := rb_consumer_pos rb;
     rb_producer_pos := rb_producer_pos rb;
     rb_stale := stale;
     rb_records := rb_records rb |}.

Definition set_consumer (pos : Z) (rb : ringbuf process_event)
  : ringbuf process_event :=
  {| rb_max_entries := rb_max_entries rb;
     rb_consumer_pos := pos;
     rb_producer_pos := rb_producer_pos rb;
     rb_stale := rb_stale rb;
     rb_records := rb_records rb |}.

(** What happens to the ring: a tracepoint fires, or the consumer moves
    its position. *)
Inductive ring_op : Type :=
| Fire (f : firing) (t : task)
| Consume (pos : Z).

(** A firing runs its handler on the slot the memory holds at the
    producer position; the event it commits is then what the memory holds
    there. *)
Definition ring_step (pg_off : Z -> Z) (s : ring_state) (op : ring_op) : ring_state :=
  match op with
  | Consume pos =>
      {| rs_mem := rs_mem s; rs_ring := set_consumer pos (rs_ring s) |}
  | Fire f t =>
      let rb := with_stale (slot_at (rs_mem s)) (rs_ring s) in
      let rb' := snd (handle f t rb) in
      let pos := rb_producer_pos rb in
      {| rs_mem :=
           match bpf_ringbuf_reserve rb sizeof_process_event, last (committed rb') with
           | Some _, Some e =>
               ring_write
                 (record_bytes (pg_off pos) e
                    (ring_read (rs_mem s) (pos + BPF_RINGBUF_HDR_SZ + off_padding) 3))
                 pos (rs_mem s)
           | _, _ => rs_mem s
           end;
         rs_ring := rb' |}
  end.

Definition run_ring (pg_off : Z -> Z) (ops : list ring_op) (s : ring_state)
  : ring_state :=
  fold_left (ring_step pg_off) ops s.

(** The ring as the loader creates it: cleared, empty. *)
Definition zero_mem : ring_mem := fun _ => x00.

Definition fresh_ring : ring_state :=
  {| rs_mem := zero_mem;
     rs_ring := rb_new events_max_entries (slot_at zero_mem) |}.

(** Every 256 bytes of the memory that start at a multiple of 8 hold a
    NUL. *)
Definition no_long_run (m : ring_mem) : Prop :=
  forall w, w mod 8 = 0 ->
    exists i, 0 <= i < 256 /\ ring_byte m (w + i) = NUL.

(** The three strings of an event are terminated within their fields. *)
Definition strings_terminated (e : process_event) : Prop :=
  nul_terminated TASK_COMM_LEN (comm e) = true
  /\ nul_terminated MAX_PATH_LEN (exe e) = true
  /\ nul_terminated MAX_ARGS_LEN (args e) = true.

(** A string field after a write that ended in a NUL at index [j]: the
    bytes after the NUL are the old ones. *)
Definition field_written (cap : nat) (old new : list byte) (j : nat) : Prop :=
  (j < cap)%nat
  /\ length new = cap
  /\ new !! j = Some NUL
  /\ forall i, (j < i)%nat -> new !! i = old !! i.

End ProcessMonitor.

(** ** Facts about the helpers *)

Module BpfFacts.
Import Bpf.

Section Ringbuf.
Context {T : Type}.
Implicit Types (rb : ringbuf T) (e : T).

Lemma committed_of_app (rs1 rs2 : list (rb_record T)) :
  committed_of (rs1 ++ rs2) = committed_of rs1 ++ committed_of rs2.
Proof.
  induction rs1 as [|[e|] rs1 IH]; simpl; [reflexivity| |assumption].
  now rewrite IH.
Qed.

Lemma committed_submit e rb :
  committed (bpf_ringbuf_submit e rb) = committed rb ++ [e].
Proof. unfold committed; simpl. now rewrite committed_of_app. Qed.

Lemma committed_discard rb :
  committed (bpf_ringbuf_discard rb) = committed rb.
Proof.
  unfold committed; simpl. rewrite committed_of_app; simpl.
  apply app_nil_r.
Qed.

Lemma reserve_records rb size slot rb1 :
  bpf_ringbuf_reserve rb size = Some (slot, rb1) ->
  rb_records rb1 = rb_records rb /\ slot = rb_stale rb (rb_producer_pos rb).
Proof.
  unfold bpf_ringbuf_reserve.
  repeat case_match; intros [= <- <-]; auto.
Qed.

Lemma reserve_committed rb size slot rb1 :
  bpf_ringbuf_reserve rb size = Some (slot, rb1) ->
  committed rb1 = committed rb.
Proof.
  intros H%reserve_records. unfold committed. now destruct H as [-> _].
Qed.
End Ringbuf.

Lemma length_store_bytes bs dst :
  (length bs <= length dst)%nat -> length (store_bytes bs dst) = length dst.
Proof.
  intros H. unfold store_bytes. rewrite length_app, length_drop. lia.
Qed.

Lemma take_store_bytes bs dst : take (length bs) (store_bytes bs dst) = bs.
Proof. unfold store_bytes. now rewrite take_app_length. Qed.

Lemma read_bytes_length m : forall n addr bs,
  read_bytes m addr n = Some bs -> length bs = n.
Proof.
  induction n as [|n IH]; simpl; intros addr bs.
  - now intros [= <-].
  - destruct (m addr); [|discriminate].
    destruct (read_bytes m (addr + 1) n) eqn:E; [|discriminate].
    intros [= <-]. simpl. f_equal. eauto.
Qed.

Lemma cstr_no_nul l : forallb (fun b => negb (is_nul b)) (cstr l) = true.
Proof.
  induction l as [|b l IH]; simpl; [reflexivity|].
  destruct (is_nul b) eqn:E; simpl; [reflexivity|]. now rewrite E.
Qed.

Lemma read_cstr_length m : forall n addr s,
  read_cstr m addr n = Some s -> (length s <= n)%nat.
Proof.
  induction n as [|n IH]; simpl; intros addr s.
  - intros [= <-]. simpl. lia.
  - destruct (m addr); [|discriminate].
    destruct (is_nul b); [intros [= <-]; simpl; lia|].
    destruct (read_cstr m (addr + 1) n) eqn:E; [|discriminate].
    intros [= <-]. simpl. apply IH in E. lia.
Qed.

Lemma existsb_nul_app_l (l1 l2 : list byte) :
  existsb is_nul l1 = true -> existsb is_nul (l1 ++ l2) = true.
Proof. intros H. rewrite existsb_app, H. reflexivity. Qed.

(** A field that starts with [bs] is terminated within [cap] when [bs]
    fits in [cap] and holds a NUL. *)
Lemma nul_terminated_store cap bs dst :
  (Z.of_nat (length bs) <= cap) ->
  existsb is_nul bs = true ->
  nul_terminated cap (store_bytes bs dst) = true.
Proof.
  intros Hlen Hnul. unfold nul_terminated, store_bytes.
  rewrite take_app_ge by lia.
  now apply existsb_nul_app_l.
Qed.

Lemma existsb_nul_repeat n : (0 < n)%nat -> existsb is_nul (repeat NUL n) = true.
Proof. destruct n; [lia|reflexivity]. Qed.

Lemma land_mask_small len : 0 <= len < 16384 -> Z.land len (16384 - 1) = len.
Proof.
  intros H. change (16384 - 1) with (Z.ones 14).
  rewrite Z.land_ones by lia. apply Z.mod_small. lia.
Qed.

Lemma to_u32_small x : 0 <= x < 2 ^ 32 -> to_u32 x = x.
Proof. intros H. unfold to_u32. now apply Z.mod_small. Qed.

Lemma to_s32_small x : - 2 ^ 31 <= x < 2 ^ 31 -> to_s32 x = x.
Proof.
  intros H. unfold to_s32, to_u32.
  destruct (Z.lt_ge_cases x 0) as [Hneg|Hpos].
  - assert (E : x mod 2 ^ 32 = x + 2 ^ 32).
    { rewrite <- (Z_mod_plus_full x 1 (2 ^ 32)). apply Z.mod_small. lia. }
    rewrite E. destruct (Z.ltb_spec (x + 2 ^ 32) (2 ^ 31)); lia.
  - rewrite Z.mod_small by lia.
    destruct (Z.ltb_spec x (2 ^ 31)); lia.
Qed.

End BpfFacts.

(** ** Properties of the TLS capture program *)

Module SslMonitorSpec.
Import Bpf BpfFacts SslMonitor.

Local Ltac by_kind k := destruct k; simpl.

(** *** What the handlers do to each map *)

Lemma emit_ssl_event_cases t buf len ty rb :
  let r := emit_ssl_event t buf len ty rb in
  fst r = 0 /\
  (((len <= 0 \/ MAX_DATA_SIZE < len) /\ snd r = rb)
   \/ (0 < len <= MAX_DATA_SIZE
       /\ bpf_ringbuf_reserve rb sizeof_ssl_data_event = None /\ snd r = rb)
   \/ (exists slot rb1,
         0 < len <= MAX_DATA_SIZE
         /\ bpf_ringbuf_reserve rb sizeof_ssl_data_event = Some (slot, rb1)
         /\ read_bytes (task_mem t) buf
              (Z.to_nat (Z.land len (MAX_DATA_SIZE - 1))) = None
         /\ snd r = bpf_ringbuf_discard rb1)
   \/ (exists slot rb1 bs,
         0 < len <= MAX_DATA_SIZE
         /\ bpf_ringbuf_reserve rb sizeof_ssl_data_event = Some (slot, rb1)
         /\ read_bytes (task_mem t) buf
              (Z.to_nat (Z.land len (MAX_DATA_SIZE - 1))) = Some bs
         /\ snd r =
              bpf_ringbuf_submit
                {| timestamp_ns := ktime_ns t;
                   pid := to_u32 (Z.shiftr (pid_tgid t) 32);
                   tid := to_u32 (pid_tgid t);
                   uid := to_u32 (uid_gid t);
                   data_len := to_u32 len;
                   type := to_u8 ty;
                   data := store_bytes bs (data slot);
                   comm := bpf_get_current_comm (task_comm t) (comm slot)
                             sizeof_comm |} rb1)).
Proof.
  unfold emit_ssl_event.
  destruct (Z.leb_spec len 0) as [Hle|Hpos]; simpl.
  { split; [reflexivity|]. left. split; [lia|reflexivity]. }
  destruct (Z.ltb_spec MAX_DATA_SIZE len) as [Hbig|Hfit]; simpl.
  { split; [reflexivity|]. left. split; [lia|reflexivity]. }
  destruct (bpf_ringbuf_reserve rb sizeof_ssl_data_event) as [[slot rb1]|] eqn:Hres.
  2:{ split; [reflexivity|]. right; left. repeat split; lia || reflexivity. }
  unfold bpf_probe_read_user; simpl.
  destruct (read_bytes (task_mem t) buf (Z.to_nat (Z.land len (MAX_DATA_SIZE - 1))))
    as [bs|] eqn:Hread; simpl.
  - split; [reflexivity|]. right; right; right.
    exists slot, rb1, bs. repeat split; lia || reflexivity.
  - split; [reflexivity|]. right; right; left.
    exists slot, rb1. repeat split; lia || reflexivity.
Qed.

Lemma ssl_return_fst k t ret st : fst (ssl_return k t ret st) = 0.
Proof.
  by_kind k.
  - unfold ssl_read_return, bpf_map_lookup_elem. now case_match.
  - unfold ssl_write_return, bpf_map_lookup_elem. now case_match.
Qed.

Lemma ssl_return_events k t ret st :
  events (snd (ssl_return k t ret st)) =
  match args_of k st !! pid_tgid t with
  | None => events st
  | Some buf =>
      if 0 <? ret then snd (emit_ssl_event t buf ret (kind_type k) (events st))
      else events st
  end.
Proof.
  by_kind k.
  - unfold ssl_read_return, bpf_map_lookup_elem. now case_match.
  - unfold ssl_write_return, bpf_map_lookup_elem. now case_match.
Qed.

Lemma ssl_return_args k t ret st :
  args_of k (snd (ssl_return k t ret st)) = delete (pid_tgid t) (args_of k st).
Proof.
  by_kind k.
  - unfold ssl_read_return, bpf_map_lookup_elem, bpf_map_delete_elem.
    case_match; simpl; [reflexivity|]. symmetry. now apply delete_id.
  - unfold ssl_write_return, bpf_map_lookup_elem, bpf_map_delete_elem.
    case_match; simpl; [reflexivity|]. symmetry. now apply delete_id.
Qed.

Lemma ssl_entry_events k t ssl buf num st :
  events (snd (ssl_entry k t ssl buf num st)) = events st.
Proof. now by_kind k. Qed.

Lemma ssl_entry_args k t ssl buf num st :
  args_of k (snd (ssl_entry k t ssl buf num st)) =
  bpf_map_update_elem args_max_entries (args_of k st) (pid_tgid t) buf.
Proof. now by_kind k. Qed.

(** The events a return handler adds to the channel: none, or one whose
    length is the result of the call. *)
Lemma ssl_return_committed k t ret st :
  let st' := snd (ssl_return k t ret st) in
  committed (events st') = committed (events st)
  \/ (0 < ret <= MAX_DATA_SIZE
      /\ exists e, committed (events st') = committed (events st) ++ [e]
                   /\ data_len e = ret /\ type e = kind_type k).
Proof.
  simpl. rewrite ssl_return_events.
  destruct (args_of k st !! pid_tgid t) as [buf|]; [|now left].
  destruct (0 <? ret); [|now left].
  destruct (emit_ssl_event_cases t buf ret (kind_type k) (events st))
    as [_ [[_ ->]|[(_ & _ & ->)|[(slot & rb1 & _ & Hres & _ & ->)
                                |(slot & rb1 & bs & Hlen & Hres & _ & ->)]]]].
  - now left.
  - now left.
  - left. rewrite committed_discard. eapply reserve_committed, Hres.
  - right. split; [exact Hlen|].
    eexists. rewrite committed_submit, (reserve_committed _ _ _ _ Hres).
    split; [reflexivity|]. simpl. split.
    + apply to_u32_small. unfold MAX_DATA_SIZE in Hlen. lia.
    + by_kind k; reflexivity.
Qed.

Lemma step_committed_bounded st c :
  Forall bounded_len (committed (events st)) ->
  Forall bounded_len (committed (events (step st c))).
Proof.
  intros Hst. destruct c as [k t ssl buf num|k t ret]; simpl.
  - now rewrite ssl_entry_events.
  - destruct (ssl_return_committed k t ret st) as [->|[Hret (e & -> & Hlen & _)]];
      [assumption|].
    apply Forall_app. split; [assumption|].
    constructor; [|constructor]. unfold bounded_len. now rewrite Hlen.
Qed.

Lemma run_committed_bounded cs : forall st,
  Forall bounded_len (committed (events st)) ->
  Forall bounded_len (committed (events (run cs st))).
Proof.
  induction cs as [|c cs IH]; intros st Hst; [exact Hst|].
  apply IH, step_committed_bounded, Hst.
Qed.

Lemma run_cycles_removes k key : forall cs c st,
  Forall (on_thread key) (c :: cs) ->
  args_of k (run_cycles k (c :: cs) st) !! key = None.
Proof.
  induction cs as [|c' cs IH]; intros c st Hall.
  - inversion Hall as [|? ? Hc _]; subst. destruct Hc as [_ Hret].
    simpl. unfold run_cycle.
    rewrite ssl_return_args, Hret. apply lookup_delete_eq.
  - inversion Hall; subst.
    change (run_cycles k (c :: c' :: cs) st)
      with (run_cycles k (c' :: cs) (run_cycle k st c)).
    now apply IH.
Qed.

(** Below the capacity the masked size is the length itself, and the
    payload starts with the bytes of the buffer. *)
Lemma below_capacity_copies_exactly k t ret buf slot rb1 bs st :
  args_of k st !! pid_tgid t = Some buf ->
  0 < ret < MAX_DATA_SIZE ->
  bpf_ringbuf_reserve (events st) sizeof_ssl_data_event = Some (slot, rb1) ->
  read_bytes (task_mem t) buf (Z.to_nat ret) = Some bs ->
  exists e,
    committed (events (snd (ssl_return k t ret st))) = committed (events st) ++ [e]
    /\ type e = kind_type k
    /\ data_len e = ret
    /\ take (Z.to_nat (data_len e)) (data e) = bs.
Proof.
  intros Hkey Hret Hres Hread.
  rewrite ssl_return_events, Hkey.
  destruct (Z.ltb_spec 0 ret) as [_|]; [|lia].
  destruct (emit_ssl_event_cases t buf ret (kind_type k) (events st))
    as [_ [[[|] _]|[(_ & Hfull & _)|[(slot' & rb1' & _ & _ & Hfail & _)
                                |(slot' & rb1' & bs' & _ & Hres' & Hread' & ->)]]]].
  - lia.
  - unfold MAX_DATA_SIZE in *. lia.
  - congruence.
  - unfold MAX_DATA_SIZE in *. rewrite land_mask_small in Hfail by lia. congruence.
  - unfold MAX_DATA_SIZE in *. rewrite land_mask_small in Hread' by lia.
    assert (slot' = slot /\ rb1' = rb1 /\ bs' = bs) as (-> & -> & ->)
      by (split; [|split]; congruence).
    eexists. rewrite committed_submit, (reserve_committed _ _ _ _ Hres).
    split; [reflexivity|]. simpl.
    assert (Hu : to_u32 ret = ret) by (apply to_u32_small; lia).
    rewrite Hu. repeat split.
    + now destruct k.
    + rewrite <- (read_bytes_length _ _ _ _ Hread). apply take_store_bytes.
Qed.

(** *** The claims *)

(** C1 (as amended): a return with a matched correlation entry whose
    reported length exceeds [MAX_DATA_SIZE] is ignored: the length is not
    clamped, the event channel is left as it was, and the correlation
    entry is removed all the same. *)
Theorem over_length_return_ignored k t ret buf st :
  args_of k st !! pid_tgid t = Some buf ->
  MAX_DATA_SIZE < ret ->
  events (snd (ssl_return k t ret st)) = events st
  /\ args_of k (snd (ssl_return k t ret st)) !! pid_tgid t = None.
Proof.
  intros Hkey Hbig. split.
  - rewrite ssl_return_events, Hkey.
    destruct (0 <? ret); [|reflexivity].
    unfold emit_ssl_event.
    destruct (Z.ltb_spec MAX_DATA_SIZE ret) as [_|]; [|lia].
    now rewrite orb_true_r.
  - rewrite ssl_return_args. apply lookup_delete_eq.
Qed.

Lemma over_length_return_ignored_witness :
  events (snd (ssl_return Write sample_task 16385 sample_pending))
    = events sample_pending
  /\ args_of Write (snd (ssl_return Write sample_task 16385 sample_pending))
       !! pid_tgid sample_task = None.
Proof.
  apply (over_length_return_ignored Write sample_task 16385 4096 sample_pending).
  - vm_compute. reflexivity.
  - vm_compute. reflexivity.
Defined.

(** C1 as stated fails: the write entered at buffer 4096 returns 16385,
    one more than the capacity, and no event of length [MAX_DATA_SIZE]
    (no event at all) is committed. *)
Lemma over_length_not_clamped :
  ssl_write_args sample_pending !! pid_tgid sample_task = Some 4096
  /\ MAX_DATA_SIZE < 16385
  /\ ~ exists e,
        In e (committed (events (snd (ssl_write_return sample_task 16385
                                        sample_pending))))
        /\ data_len e = MAX_DATA_SIZE.
Proof.
  split; [vm_compute; reflexivity|]. split; [vm_compute; reflexivity|].
  assert (Hnone : committed (events (snd (ssl_write_return sample_task 16385
                                            sample_pending))) = [])
    by (vm_compute; reflexivity).
  rewrite Hnone. intros [e [[] _]].
Qed.

(** C2, at the length the guard of [emit_ssl_event] still admits but the
    mask [len & (MAX_DATA_SIZE - 1)] sends to 0: a matched return
    reporting [MAX_DATA_SIZE] commits an event of data length
    [MAX_DATA_SIZE] into which no byte of the buffer was copied; its
    payload is what the reserved slot held before. *)
Theorem full_length_copies_nothing k t buf slot rb1 st :
  args_of k st !! pid_tgid t = Some buf ->
  bpf_ringbuf_reserve (events st) sizeof_ssl_data_event = Some (slot, rb1) ->
  exists e,
    committed (events (snd (ssl_return k t MAX_DATA_SIZE st)))
      = committed (events st) ++ [e]
    /\ data_len e = MAX_DATA_SIZE
    /\ data e = data slot.
Proof.
  intros Hkey Hres.
  rewrite ssl_return_events, Hkey.
  change (0 <? MAX_DATA_SIZE) with true. cbv iota.
  unfold emit_ssl_event.
  change ((MAX_DATA_SIZE <=? 0) || (MAX_DATA_SIZE <? MAX_DATA_SIZE)) with false.
  cbv iota. rewrite Hres.
  change (Z.land MAX_DATA_SIZE (MAX_DATA_SIZE - 1)) with 0.
  unfold bpf_probe_read_user. simpl.
  eexists. rewrite committed_submit, (reserve_committed _ _ _ _ Hres).
  split; [reflexivity|]. split; reflexivity.
Qed.

Lemma full_length_copies_nothing_witness :
  read_bytes (task_mem sample_task) 4096 (Z.to_nat MAX_DATA_SIZE)
    = Some (repeat x41 (Z.to_nat MAX_DATA_SIZE))
  /\ exists e,
       committed (events (snd (ssl_return Write sample_task MAX_DATA_SIZE
                                 sample_pending)))
         = committed (events sample_pending) ++ [e]
       /\ data_len e = MAX_DATA_SIZE
       /\ data e = repeat x00 (Z.to_nat MAX_DATA_SIZE).
Proof.
  split; [vm_compute; reflexivity|].
  apply (full_length_copies_nothing Write sample_task 4096 zero_event
           {| rb_max_entries := events_max_entries; rb_consumer_pos := 0;
              rb_producer_pos := 16440; rb_stale := fun _ => zero_event;
              rb_records := [] |} sample_pending).
  - vm_compute. reflexivity.
  - reflexivity.
Defined.

(** C3: in every state reached by probe firings from a channel whose
    committed events have [0 < data_len <= MAX_DATA_SIZE] (the empty
    channel for one), the committed events have it too; and a return
    whose result is [<= 0] commits no event. *)
Theorem committed_lengths_bounded cs k t ret st :
  Forall bounded_len (committed (events st)) ->
  ret <= 0 ->
  Forall bounded_len (committed (events (run cs st)))
  /\ committed (events (snd (ssl_return k t ret (run cs st))))
       = committed (events (run cs st)).
Proof.
  intros Hst Hret. split.
  - now apply run_committed_bounded.
  - destruct (ssl_return_committed k t ret (run cs st)) as [H|[Hpos _]];
      [exact H|lia].
Qed.

Lemma committed_lengths_bounded_witness :
  Forall bounded_len
    (committed (events (run [Entry Write sample_task 77 4096 10;
                             Return Write sample_task 10] init_state)))
  /\ committed (events (snd (ssl_return Read sample_task (-1)
                 (run [Entry Write sample_task 77 4096 10;
                       Return Write sample_task 10] sample_pending))))
     = committed (events (run [Entry Write sample_task 77 4096 10;
                               Return Write sample_task 10] sample_pending)).
Proof.
  split.
  - apply (committed_lengths_bounded
             [Entry Write sample_task 77 4096 10; Return Write sample_task 10]
             Read sample_task (-1) init_state).
    + constructor.
    + lia.
  - apply (committed_lengths_bounded
             [Entry Write sample_task 77 4096 10; Return Write sample_task 10]
             Read sample_task (-1) sample_pending).
    + constructor.
    + lia.
Defined.

(** C5: a return handler that finds a correlation entry for its thread
    removes it whatever the result of the call, and after one or more
    entry/return cycles on a thread the store holds no entry (hence at
    most one) under that thread's key. *)
Theorem return_removes_entry k key t buf ret c cs st :
  pid_tgid t = key ->
  args_of k st !! key = Some buf ->
  Forall (on_thread key) (c :: cs) ->
  args_of k (snd (ssl_return k t ret st)) !! key = None
  /\ entry_count (args_of k (run_cycles k (c :: cs) st)) key = 0%nat
  /\ (entry_count (args_of k (run_cycles k (c :: cs) st)) key <= 1)%nat.
Proof.
  intros Ht Hkey Hall.
  assert (Hrest : entry_count (args_of k (run_cycles k (c :: cs) st)) key = 0%nat).
  { unfold entry_count. now rewrite run_cycles_removes. }
  split; [|split].
  - rewrite ssl_return_args, Ht. apply lookup_delete_eq.
  - exact Hrest.
  - rewrite Hrest. lia.
Qed.

Lemma return_removes_entry_witness :
  args_of Write (snd (ssl_return Write sample_task (-1) sample_pending))
    !! pid_tgid sample_task = None
  /\ entry_count
       (args_of Write
          (run_cycles Write
             [mk_cycle sample_task 77 4096 10 sample_task 10;
              mk_cycle sample_task 77 4096 10 sample_task (-1)]
             sample_pending))
       (pid_tgid sample_task) = 0%nat
  /\ (entry_count
        (args_of Write
           (run_cycles Write
              [mk_cycle sample_task 77 4096 10 sample_task 10;
               mk_cycle sample_task 77 4096 10 sample_task (-1)]
              sample_pending))
        (pid_tgid sample_task) <= 1)%nat.
Proof.
  apply (return_removes_entry Write (pid_tgid sample_task) sample_task 4096 (-1)).
  - reflexivity.
  - vm_compute. reflexivity.
  - repeat constructor.
Defined.

(** C6: when the entry of a first call is resident, a second entry
    firing on the same thread and call kind overwrites it: the store
    keeps its size, holds one entry under the key, its value is the
    second buffer, and the other keys are untouched. *)
Theorem second_entry_overwrites k t1 ssl1 buf1 num1 t2 ssl2 buf2 num2 st :
  pid_tgid t2 = pid_tgid t1 ->
  args_of k (snd (ssl_entry k t1 ssl1 buf1 num1 st)) !! pid_tgid t1 = Some buf1 ->
  args_of k (snd (ssl_entry k t2 ssl2 buf2 num2
                    (snd (ssl_entry k t1 ssl1 buf1 num1 st)))) !! pid_tgid t1
    = Some buf2
  /\ size (args_of k (snd (ssl_entry k t2 ssl2 buf2 num2
                             (snd (ssl_entry k t1 ssl1 buf1 num1 st)))))
     = size (args_of k (snd (ssl_entry k t1 ssl1 buf1 num1 st)))
  /\ entry_count
       (args_of k (snd (ssl_entry k t2 ssl2 buf2 num2
                          (snd (ssl_entry k t1 ssl1 buf1 num1 st)))))
       (pid_tgid t1) = 1%nat
  /\ forall key, key <> pid_tgid t1 ->
       args_of k (snd (ssl_entry k t2 ssl2 buf2 num2
                         (snd (ssl_entry k t1 ssl1 buf1 num1 st)))) !! key
       = args_of k (snd (ssl_entry k t1 ssl1 buf1 num1 st)) !! key.
Proof.
  intros Ht Hfirst.
  set (st1 := snd (ssl_entry k t1 ssl1 buf1 num1 st)) in *.
  rewrite (ssl_entry_args k t2 ssl2 buf2 num2 st1), Ht.
  unfold bpf_map_update_elem, entry_count. rewrite Hfirst.
  rewrite lookup_insert_eq. repeat split.
  - apply map_size_insert_Some. now exists buf1.
  - intros key Hne. now apply lookup_insert_ne.
Qed.

Lemma second_entry_overwrites_witness :
  args_of Read (snd (ssl_entry Read sample_task 78 65600 20
                       (snd (ssl_entry Read sample_task 77 65536 10 init_state))))
    !! pid_tgid sample_task = Some 65600
  /\ size (args_of Read (snd (ssl_entry Read sample_task 78 65600 20
                                (snd (ssl_entry Read sample_task 77 65536 10
                                        init_state)))))
     = size (args_of Read (snd (ssl_entry Read sample_task 77 65536 10 init_state)))
  /\ entry_count
       (args_of Read (snd (ssl_entry Read sample_task 78 65600 20
                             (snd (ssl_entry Read sample_task 77 65536 10
                                     init_state)))))
       (pid_tgid sample_task) = 1%nat
  /\ forall key, key <> pid_tgid sample_task ->
       args_of Read (snd (ssl_entry Read sample_task 78 65600 20
                            (snd (ssl_entry Read sample_task 77 65536 10
                                    init_state)))) !! key
       = args_of Read (snd (ssl_entry Read sample_task 77 65536 10 init_state))
           !! key.
Proof.
  apply (second_entry_overwrites Read sample_task 77 65536 10
           sample_task 78 65600 20 init_state).
  - reflexivity.
  - vm_compute. reflexivity.
Defined.

(** The return code of the read tells whether the bytes were there. *)
Lemma probe_read_user_fails m dst size src :
  fst (bpf_probe_read_user m dst size src) <> 0
  <-> read_bytes m src (Z.to_nat size) = None.
Proof.
  unfold bpf_probe_read_user.
  destruct (read_bytes m src (Z.to_nat size)); simpl; split;
    intros H; try reflexivity; try discriminate; try (now elim H).
Qed.

(** C8: when the read of the recorded buffer fails, the return handler
    still returns 0, the slot it reserved is discarded, and the events
    visible to the consumer are those visible before. *)
Theorem failed_read_discards k t ret buf st :
  args_of k st !! pid_tgid t = Some buf ->
  read_bytes (task_mem t) buf (Z.to_nat (Z.land ret (MAX_DATA_SIZE - 1))) = None ->
  fst (ssl_return k t ret st) = 0
  /\ committed (events (snd (ssl_return k t ret st))) = committed (events st)
  /\ rb_records (events (snd (ssl_return k t ret st))) =
     match bpf_ringbuf_reserve (events st) sizeof_ssl_data_event with
     | Some _ =>
         if (0 <? ret) && (ret <=? MAX_DATA_SIZE)
         then rb_records (events st) ++ [Discarded]
         else rb_records (events st)
     | None => rb_records (events st)
     end.
Proof.
  intros Hkey Hfail. split; [apply ssl_return_fst|].
  rewrite ssl_return_events, Hkey.
  destruct (Z.ltb_spec 0 ret) as [Hpos|Hneg]; simpl.
  2:{ split; [reflexivity|]. now case_match. }
  destruct (emit_ssl_event_cases t buf ret (kind_type k) (events st))
    as [_ [[[|Hbig] ->]|[(_ & -> & ->)|[(slot & rb1 & Hlen & Hres & _ & ->)
                                |(slot & rb1 & bs & _ & _ & Hread & _)]]]].
  - lia.
  - split; [reflexivity|].
    destruct (Z.leb_spec ret MAX_DATA_SIZE); [lia|]. now case_match.
  - split; reflexivity.
  - rewrite committed_discard, (reserve_committed _ _ _ _ Hres), Hres.
    split; [reflexivity|].
    destruct (Z.leb_spec ret MAX_DATA_SIZE); [|lia].
    simpl. now destruct (reserve_records _ _ _ _ Hres) as [-> _].
  - congruence.
Qed.

Lemma failed_read_discards_witness :
  fst (ssl_return Write sample_task 10
         (snd (ssl_write_entry sample_task 77 0 10 init_state))) = 0
  /\ committed (events (snd (ssl_return Write sample_task 10
                  (snd (ssl_write_entry sample_task 77 0 10 init_state)))))
     = []
  /\ rb_records (events (snd (ssl_return Write sample_task 10
                   (snd (ssl_write_entry sample_task 77 0 10 init_state)))))
     = [Discarded].
Proof.
  apply (failed_read_discards Write sample_task 10 0
           (snd (ssl_write_entry sample_task 77 0 10 init_state))).
  - vm_compute. reflexivity.
  - vm_compute. reflexivity.
Defined.

(** C9: a return handler that finds no correlation entry for its thread
    returns 0 at once and leaves the event channel and both stores as
    they were. *)
Theorem unmatched_return_is_noop k t ret st :
  args_of k st !! pid_tgid t = None ->
  ssl_return k t ret st = (0, st).
Proof.
  intros Hkey. destruct k; simpl in *.
  - unfold ssl_read_return, bpf_map_lookup_elem. now rewrite Hkey.
  - unfold ssl_write_return, bpf_map_lookup_elem. now rewrite Hkey.
Qed.

Lemma unmatched_return_is_noop_witness :
  ssl_return Read sample_task 10
    (snd (ssl_write_entry sample_task 77 4096 10 init_state))
  = (0, snd (ssl_write_entry sample_task 77 4096 10 init_state)).
Proof.
  apply (unmatched_return_is_noop Read sample_task 10
           (snd (ssl_write_entry sample_task 77 4096 10 init_state))).
  vm_compute. reflexivity.
Defined.

End SslMonitorSpec.

(** ** Properties of the process lifecycle program *)

Module ProcessMonitorSpec.
Import Bpf BpfFacts ProcessMonitor.

(** *** The string helpers *)

Lemma get_current_comm_terminated task_comm buf size :
  0 < size ->
  nul_terminated size (bpf_get_current_comm task_comm buf size) = true.
Proof.
  intros Hsize. unfold bpf_get_current_comm.
  set (s := take (Z.to_nat (size - 1)) (cstr task_comm)).
  assert (Hs : (length s <= Z.to_nat (size - 1))%nat)
    by (unfold s; rewrite length_take; lia).
  apply nul_terminated_store.
  - rewrite length_app, repeat_length. lia.
  - rewrite existsb_app, existsb_nul_repeat by lia. apply orb_true_r.
Qed.

Lemma probe_read_str_terminated m dst size src :
  0 < size ->
  nul_terminated size (snd (bpf_probe_read_str m dst size src)) = true.
Proof.
  intros Hsize. unfold bpf_probe_read_str.
  destruct (Z.leb_spec size 0); [lia|].
  destruct (read_cstr m src (Z.to_nat size)) as [s|] eqn:Hs; simpl.
  - apply nul_terminated_store.
    + rewrite length_app, length_take. simpl. lia.
    + rewrite existsb_app. simpl. apply orb_true_r.
  - apply nul_terminated_store.
    + rewrite repeat_length. lia.
    + apply existsb_nul_repeat. lia.
Qed.

(** Reading a string out of an array that is long enough cannot fault. *)
Lemma read_cstr_array l : forall n a,
  (a + n <= length l)%nat ->
  read_cstr (array_mem l) (Z.of_nat a) n = Some (take n (cstr (drop a l))).
Proof.
  induction n as [|n IH]; intros a Hlen; [reflexivity|].
  simpl. unfold array_mem at 1.
  destruct (Z.ltb_spec (Z.of_nat a) 0); [lia|].
  rewrite Nat2Z.id.
  destruct (l !! a) as [b|] eqn:Hb.
  2:{ apply lookup_ge_None in Hb. lia. }
  rewrite (drop_S _ _ _ Hb). simpl.
  destruct (is_nul b); [reflexivity|].
  replace (Z.of_nat a + 1) with (Z.of_nat (S a)) by lia.
  rewrite IH by lia. reflexivity.
Qed.

Lemma cstr_app_nul s rest :
  forallb (fun b => negb (is_nul b)) s = true ->
  cstr (s ++ NUL :: rest) = s.
Proof.
  induction s as [|b s IH]; simpl; [reflexivity|].
  intros [Hb Hs]%andb_true_iff.
  destruct (is_nul b); [discriminate|]. now rewrite IH.
Qed.

Lemma forallb_take {A} (p : A -> bool) n (l : list A) :
  forallb p l = true -> forallb p (take n l) = true.
Proof.
  revert n. induction l as [|x l IH]; intros [|n]; simpl; try reflexivity.
  intros [-> Hl]%andb_true_iff. simpl. now apply IH.
Qed.

(** *** The claims *)

(** One firing, on whatever the slot holds: the command name of the event
    is NUL-terminated within [TASK_COMM_LEN], the executable path of an
    EXEC event within [MAX_PATH_LEN], whatever the length of the source
    string; the fields the handler does not write (the argument string for
    every kind, the executable path of EXIT and FORK) are those of the
    reserved slot. *)
Theorem written_strings_terminated f t rb slot rb1 :
  bpf_ringbuf_reserve rb sizeof_process_event = Some (slot, rb1) ->
  exists e,
    committed (snd (handle f t rb)) = committed rb ++ [e]
    /\ nul_terminated TASK_COMM_LEN (comm e) = true
    /\ match f with
       | Exec _ => type e = PROC_EXEC /\ nul_terminated MAX_PATH_LEN (exe e) = true
       | Exit _ => type e = PROC_EXIT /\ exe e = exe slot
       | Fork _ => type e = PROC_FORK /\ exe e = exe slot
       end
    /\ args e = args slot.
Proof.
  intros Hres.
  destruct f as [ctx|ctx|ctx]; simpl;
    [unfold trace_exec|unfold trace_exit|unfold trace_fork];
    rewrite Hres; simpl;
    eexists; rewrite committed_submit, (reserve_committed _ _ _ _ Hres);
    (split; [reflexivity|]); simpl.
  - split; [now apply get_current_comm_terminated|].
    split; [|reflexivity]. split; [reflexivity|].
    now apply probe_read_str_terminated.
  - split; [now apply get_current_comm_terminated|]. auto.
  - split; [now apply probe_read_str_terminated|]. auto.
Qed.

Lemma written_strings_terminated_witness :
  exists e,
    committed (snd (handle (Exec {| filename := 8192 |}) sample_proc dirty_ring))
      = committed dirty_ring ++ [e]
    /\ nul_terminated TASK_COMM_LEN (comm e) = true
    /\ (type e = PROC_EXEC /\ nul_terminated MAX_PATH_LEN (exe e) = true)
    /\ args e = args dirty_event.
Proof.
  apply (written_strings_terminated (Exec {| filename := 8192 |}) sample_proc
           dirty_ring dirty_event
           {| rb_max_entries := events_max_entries; rb_consumer_pos := 0;
              rb_producer_pos := 568; rb_stale := fun _ => dirty_event;
              rb_records := [] |}).
  reflexivity.
Defined.

(** C7: a fork firing with parent pid [P] and child pid [C], when the
    reservation succeeds, commits one event with [pid = ppid = P], kind
    FORK, auxiliary code [C], and as command name the string of the
    parent's recorded command name (cut to [TASK_COMM_LEN - 1] bytes). *)
Theorem fork_event_fields ctx t rb slot rb1 :
  bpf_ringbuf_reserve rb sizeof_process_event = Some (slot, rb1) ->
  0 <= parent_pid ctx < 2 ^ 31 ->
  - 2 ^ 31 <= child_pid ctx < 2 ^ 31 ->
  length (parent_comm ctx) = Z.to_nat TASK_COMM_LEN ->
  exists e,
    committed (snd (trace_fork ctx t rb)) = committed rb ++ [e]
    /\ pid e = parent_pid ctx
    /\ ppid e = parent_pid ctx
    /\ type e = PROC_FORK
    /\ exit_code e = child_pid ctx
    /\ cstr (comm e)
       = take (Z.to_nat (TASK_COMM_LEN - 1)) (cstr (parent_comm ctx)).
Proof.
  intros Hres Hp Hc Hcomm.
  unfold trace_fork. rewrite Hres. simpl.
  eexists. rewrite committed_submit, (reserve_committed _ _ _ _ Hres).
  split; [reflexivity|]. simpl.
  rewrite to_u32_small by lia. rewrite to_s32_small by lia.
  repeat split.
  unfold bpf_probe_read_str.
  change (TASK_COMM_LEN <=? 0) with false. cbv iota.
  change 0 with (Z.of_nat 0) at 1.
  rewrite read_cstr_array by (rewrite Hcomm; vm_compute; lia).
  simpl snd. rewrite take_take. unfold store_bytes. rewrite <- app_assoc. simpl.
  apply cstr_app_nul, forallb_take, cstr_no_nul.
Qed.

Lemma fork_event_fields_witness :
  exists e,
    committed (snd (trace_fork sample_fork sample_proc dirty_ring))
      = committed dirty_ring ++ [e]
    /\ pid e = 100
    /\ ppid e = 100
    /\ type e = PROC_FORK
    /\ exit_code e = 200
    /\ cstr (comm e)
       = take (Z.to_nat (TASK_COMM_LEN - 1)) (cstr (parent_comm sample_fork)).
Proof.
  apply (fork_event_fields sample_fork sample_proc dirty_ring dirty_event
           {| rb_max_entries := events_max_entries; rb_consumer_pos := 0;
              rb_producer_pos := 568; rb_stale := fun _ => dirty_event;
              rb_records := [] |}).
  - reflexivity.
  - simpl. lia.
  - simpl. lia.
  - reflexivity.
Defined.

(** C10: the fork handler does not assign [uid] and [gid]: the FORK
    event it commits carries in them what the reserved slot held, while
    the exec and exit handlers set them from the credentials of the
    current task. *)
Theorem fork_leaves_uid_gid f t rb slot rb1 :
  bpf_ringbuf_reserve rb sizeof_process_event = Some (slot, rb1) ->
  exists e,
    committed (snd (handle f t rb)) = committed rb ++ [e]
    /\ match f with
       | Fork _ => type e = PROC_FORK /\ uid e = uid slot /\ gid e = gid slot
       | Exec _ =>
           type e = PROC_EXEC
           /\ uid e = to_u32 (uid_gid t)
           /\ gid e = to_u32 (Z.shiftr (uid_gid t) 32)
       | Exit _ =>
           type e = PROC_EXIT
           /\ uid e = to_u32 (uid_gid t)
           /\ gid e = to_u32 (Z.shiftr (uid_gid t) 32)
       end.
Proof.
  intros Hres.
  destruct f as [ctx|ctx|ctx]; simpl;
    [unfold trace_exec|unfold trace_exit|unfold trace_fork];
    rewrite Hres; simpl;
    eexists; rewrite committed_submit, (reserve_committed _ _ _ _ Hres);
    (split; [reflexivity|]); simpl; auto.
Qed.

Lemma fork_leaves_uid_gid_witness :
  exists e,
    committed (snd (handle (Fork sample_fork) sample_proc dirty_ring))
      = committed dirty_ring ++ [e]
    /\ type e = PROC_FORK /\ uid e = 4242 /\ gid e = 4343.
Proof.
  apply (fork_leaves_uid_gid (Fork sample_fork) sample_proc dirty_ring dirty_event
           {| rb_max_entries := events_max_entries; rb_consumer_pos := 0;
              rb_producer_pos := 568; rb_stale := fun _ => dirty_event;
              rb_records := [] |}).
  reflexivity.
Defined.

End ProcessMonitorSpec.

(** ** Further properties of the TLS capture program *)

Module SslMonitorExtra.
Import Bpf BpfFacts SslMonitor SslMonitorSpec.

(** *** The correlation stores *)

Lemma update_lookup_ne (m : gmap Z Z) n key key' v :
  key <> key' -> bpf_map_update_elem n m key v !! key' = m !! key'.
Proof.
  intros Hne. unfold bpf_map_update_elem.
  repeat case_match; try reflexivity; now apply lookup_insert_ne.
Qed.



(** What a firing does to the store of kind [k]. *)
Lemma step_args k st c :
  args_of k (step st c) =
  match c with
  | Entry k' t _ buf _ =>
      if kind_eqb k k'
      then bpf_map_update_elem args_max_entries (args_of k st) (pid_tgid t) buf
      else args_of k st
  | Return k' t _ =>
      if kind_eqb k k' then delete (pid_tgid t) (args_of k st) else args_of k st
  end.
Proof.
  destruct c as [k' t ssl buf num|k' t ret].
  - destruct k, k'; reflexivity.
  - destruct k, k'; simpl kind_eqb; cbv iota;
      try (apply (ssl_return_args Read)); try (apply (ssl_return_args Write));
      simpl; [unfold ssl_write_return|unfold ssl_read_return];
      unfold bpf_map_lookup_elem; now case_match.
Qed.

(** X1: firings on other threads leave the entry of a thread alone. *)
Theorem other_threads_do_not_disturb k key cs st :
  Forall (fun c => call_key c <> key) cs ->
  args_of k (run cs st) !! key = args_of k st !! key.
Proof.
  revert st. induction cs as [|c cs IH]; intros st Hall; [reflexivity|].
  inversion Hall as [|? ? Hc Hcs]; subst. simpl.
  change (fold_left step cs (step st c)) with (run cs (step st c)).
  rewrite IH by assumption. rewrite step_args.
  destruct c as [k' t ssl buf num|k' t ret]; simpl in Hc;
    destruct (kind_eqb k k'); try reflexivity.
  - now apply update_lookup_ne.
  - now apply lookup_delete_ne.
Qed.

Lemma other_threads_do_not_disturb_witness :
  args_of Write
    (run [Entry Write (mk_task 5 0 0 [] 0 0 sample_mem) 1 4096 10;
          Return Write (mk_task 6 0 0 [] 0 0 sample_mem) 10;
          Return Read (mk_task 5 0 0 [] 0 0 sample_mem) 10] sample_pending)
    !! pid_tgid sample_task
  = args_of Write sample_pending !! pid_tgid sample_task.
Proof.
  apply (other_threads_do_not_disturb Write (pid_tgid sample_task)).
  repeat constructor; vm_compute; discriminate.
Defined.

(** X2: firings of one call kind leave the store of the other kind as
    it was. *)
Theorem kinds_use_separate_stores k cs st :
  Forall (fun c => kind_eqb k (call_kind_of c) = false) cs ->
  args_of k (run cs st) = args_of k st.
Proof.
  revert st. induction cs as [|c cs IH]; intros st Hall; [reflexivity|].
  inversion Hall as [|? ? Hc Hcs]; subst. simpl.
  change (fold_left step cs (step st c)) with (run cs (step st c)).
  rewrite IH by assumption. rewrite step_args.
  destruct c; simpl in Hc; now rewrite Hc.
Qed.

Lemma kinds_use_separate_stores_witness :
  args_of Read
    (run [Entry Write sample_task 1 4096 10; Return Write sample_task 10;
          Return Write sample_task 10] sample_pending)
  = args_of Read sample_pending.
Proof.
  apply (kinds_use_separate_stores Read).
  repeat constructor.
Defined.



Lemma state_eta st :
  {| events := events st; ssl_write_args := ssl_write_args st;
     ssl_read_args := ssl_read_args st |} = st.
Proof. now destruct st. Qed.

Lemma update_full (m : gmap Z Z) n key v :
  m !! key = None -> n <= Z.of_nat (size m) -> bpf_map_update_elem n m key v = m.
Proof.
  intros Hkey Hfull. unfold bpf_map_update_elem. rewrite Hkey.
  destruct (Z.ltb_spec (Z.of_nat (size m)) n); [lia|reflexivity].
Qed.

(** X4: when the store is full and holds nothing for the thread, the
    entry handler records nothing, and the call goes by unseen: after its
    return the maps are what they were before its entry. *)
Theorem full_store_drops_call k c st :
  args_of k st !! pid_tgid (c_entry_task c) = None ->
  args_max_entries <= Z.of_nat (size (args_of k st)) ->
  pid_tgid (c_return_task c) = pid_tgid (c_entry_task c) ->
  run_cycle k st c = st.
Proof.
  intros Hkey Hfull Hthread. unfold run_cycle.
  assert (Hentry : snd (ssl_entry k (c_entry_task c) (c_ssl c) (c_buf c) (c_num c) st)
                   = st).
  { destruct k; simpl in *;
      [unfold ssl_read_entry|unfold ssl_write_entry]; simpl;
      rewrite update_full by assumption; apply state_eta. }
  rewrite Hentry.
  destruct k; simpl in *;
    [unfold ssl_read_return|unfold ssl_write_return];
    unfold bpf_map_lookup_elem; now rewrite Hthread, Hkey.
Qed.

Lemma full_store_drops_call_witness :
  run_cycle Write sample_store_full (mk_cycle sample_task 77 4096 10 sample_task 10)
  = sample_store_full.
Proof.
  apply (full_store_drops_call Write
           (mk_cycle sample_task 77 4096 10 sample_task 10) sample_store_full).
  - vm_compute. reflexivity.
  - vm_compute. discriminate.
  - reflexivity.
Defined.

(** *** The emitted event *)

(** The event a matched return commits when the ring has room and the
    buffer can be read. *)
Lemma ssl_return_emits k t ret buf slot rb1 bs st :
  args_of k st !! pid_tgid t = Some buf ->
  0 < ret <= MAX_DATA_SIZE ->
  bpf_ringbuf_reserve (events st) sizeof_ssl_data_event = Some (slot, rb1) ->
  read_bytes (task_mem t) buf (Z.to_nat (Z.land ret (MAX_DATA_SIZE - 1))) = Some bs ->
  events (snd (ssl_return k t ret st)) =
  bpf_ringbuf_submit
    {| timestamp_ns := ktime_ns t;
       pid := to_u32 (Z.shiftr (pid_tgid t) 32);
       tid := to_u32 (pid_tgid t);
       uid := to_u32 (uid_gid t);
       data_len := to_u32 ret;
       type := to_u8 (kind_type k);
       data := store_bytes bs (data slot);
       comm := bpf_get_current_comm (task_comm t) (comm slot) sizeof_comm |} rb1.
Proof.
  intros Hkey Hret Hres Hread.
  rewrite ssl_return_events, Hkey.
  destruct (Z.ltb_spec 0 ret) as [_|]; [|lia].
  destruct (emit_ssl_event_cases t buf ret (kind_type k) (events st))
    as [_ [[[|] _]|[(_ & Hfull & _)|[(slot' & rb1' & _ & _ & Hfail & _)
                                |(slot' & rb1' & bs' & _ & Hres' & Hread' & ->)]]]];
    [lia|lia|congruence|congruence|].
  assert (slot' = slot /\ rb1' = rb1 /\ bs' = bs) as (-> & -> & ->)
    by (split; [|split]; congruence).
  reflexivity.
Qed.

Lemma update_lookup_stored (m : gmap Z Z) key v :
  is_Some (m !! key) \/ Z.of_nat (size m) < args_max_entries ->
  bpf_map_update_elem args_max_entries m key v !! key = Some v.
Proof.
  intros Hroom. unfold bpf_map_update_elem.
  destruct (m !! key) as [old|] eqn:Hkey; [apply lookup_insert_eq|].
  destruct Hroom as [[? ?]|Hroom]; [discriminate|].
  destruct (Z.ltb_spec (Z.of_nat (size m)) args_max_entries); [|lia].
  apply lookup_insert_eq.
Qed.

(** X5: a call seen from entry to return, on a thread with no entry
    pending and a store with room.  When the result is below the capacity,
    the ring has room and the buffer can be read at return time, one event
    is committed: its direction is that of the call, its length the
    result, its payload starts with the bytes the buffer holds at return
    time; and the store is again what it was before the entry. *)
Theorem entry_return_round_trip k c slot rb1 bs st :
  pid_tgid (c_return_task c) = pid_tgid (c_entry_task c) ->
  args_of k st !! pid_tgid (c_entry_task c) = None ->
  Z.of_nat (size (args_of k st)) < args_max_entries ->
  0 < c_ret c < MAX_DATA_SIZE ->
  bpf_ringbuf_reserve (events st) sizeof_ssl_data_event = Some (slot, rb1) ->
  read_bytes (task_mem (c_return_task c)) (c_buf c) (Z.to_nat (c_ret c)) = Some bs ->
  exists e,
    committed (events (run_cycle k st c)) = committed (events st) ++ [e]
    /\ type e = kind_type k
    /\ data_len e = c_ret c
    /\ take (Z.to_nat (c_ret c)) (data e) = bs
    /\ args_of k (run_cycle k st c) = args_of k st.
Proof.
  intros Hthread Hkey Hroom Hret Hres Hread. unfold run_cycle.
  set (st1 := snd (ssl_entry k (c_entry_task c) (c_ssl c) (c_buf c) (c_num c) st)).
  assert (Hst1 : args_of k st1 !! pid_tgid (c_return_task c) = Some (c_buf c)).
  { unfold st1. rewrite ssl_entry_args, Hthread.
    apply update_lookup_stored. now right. }
  assert (Hev1 : events st1 = events st) by apply ssl_entry_events.
  unfold MAX_DATA_SIZE in Hret.
  rewrite (ssl_return_emits k _ _ _ slot rb1 bs st1 Hst1);
    [|unfold MAX_DATA_SIZE; lia|now rewrite Hev1
     |unfold MAX_DATA_SIZE; now rewrite land_mask_small by lia].
  eexists. rewrite committed_submit, (reserve_committed _ _ _ _ Hres).
  split; [reflexivity|]. simpl. repeat split.
  - now destruct k.
  - apply to_u32_small. lia.
  - rewrite <- (read_bytes_length _ _ _ _ Hread). apply take_store_bytes.
  - rewrite ssl_return_args. unfold st1. rewrite ssl_entry_args, Hthread.
    unfold bpf_map_update_elem. rewrite Hkey.
    destruct (Z.ltb_spec (Z.of_nat (size (args_of k st))) args_max_entries); [|lia].
    now apply delete_insert_id.
Qed.

Lemma entry_return_round_trip_witness :
  exists e,
    committed (events (run_cycle Read init_state
                         (mk_cycle sample_task 77 65536 100 sample_task 10)))
      = committed (events init_state) ++ [e]
    /\ type e = kind_type Read
    /\ data_len e = 10
    /\ take (Z.to_nat 10) (data e) = repeat x41 10
    /\ args_of Read (run_cycle Read init_state
                       (mk_cycle sample_task 77 65536 100 sample_task 10))
       = args_of Read init_state.
Proof.
  apply (entry_return_round_trip Read
           (mk_cycle sample_task 77 65536 100 sample_task 10) zero_event
           {| rb_max_entries := events_max_entries; rb_consumer_pos := 0;
              rb_producer_pos := 16440; rb_stale := fun _ => zero_event;
              rb_records := [] |} (repeat x41 10) init_state).
  - reflexivity.
  - reflexivity.
  - vm_compute. reflexivity.
  - vm_compute. split; reflexivity.
  - reflexivity.
  - vm_compute. reflexivity.
Defined.

(** X6: two entries on one thread before a return.  The return resolves
    against the buffer of the second entry, one event is committed for the
    two calls, and a further return on the thread finds nothing and does
    nothing. *)
Theorem overlapping_entries_resolve_to_last
    k t1 ssl1 buf1 num1 t2 ssl2 buf2 num2 t3 ret t4 ret' slot rb1 bs st :
  pid_tgid t2 = pid_tgid t1 ->
  pid_tgid t3 = pid_tgid t1 ->
  pid_tgid t4 = pid_tgid t1 ->
  is_Some (args_of k st !! pid_tgid t1)
    \/ Z.of_nat (size (args_of k st)) < args_max_entries ->
  0 < ret < MAX_DATA_SIZE ->
  bpf_ringbuf_reserve (events st) sizeof_ssl_data_event = Some (slot, rb1) ->
  read_bytes (task_mem t3) buf2 (Z.to_nat ret) = Some bs ->
  exists e,
    committed (events (run [Entry k t1 ssl1 buf1 num1; Entry k t2 ssl2 buf2 num2;
                            Return k t3 ret] st))
      = committed (events st) ++ [e]
    /\ take (Z.to_nat ret) (data e) = bs
    /\ ssl_return k t4 ret'
         (run [Entry k t1 ssl1 buf1 num1; Entry k t2 ssl2 buf2 num2;
               Return k t3 ret] st)
       = (0, run [Entry k t1 ssl1 buf1 num1; Entry k t2 ssl2 buf2 num2;
                  Return k t3 ret] st).
Proof.
  intros H2 H3 H4 Hroom Hret Hres Hread.
  unfold run. simpl fold_left.
  set (st1 := snd (ssl_entry k t1 ssl1 buf1 num1 st)).
  set (st2 := snd (ssl_entry k t2 ssl2 buf2 num2 st1)).
  assert (Hst1 : args_of k st1 !! pid_tgid t1 = Some buf1).
  { unfold st1. rewrite ssl_entry_args. now apply update_lookup_stored. }
  assert (Hst2 : args_of k st2 !! pid_tgid t3 = Some buf2).
  { unfold st2. rewrite ssl_entry_args, H2, H3.
    apply update_lookup_stored. left. rewrite Hst1. eauto. }
  assert (Hev2 : events st2 = events st).
  { unfold st2, st1. now rewrite !ssl_entry_events. }
  unfold MAX_DATA_SIZE in Hret.
  exists {| timestamp_ns := ktime_ns t3;
            pid := to_u32 (Z.shiftr (pid_tgid t3) 32);
            tid := to_u32 (pid_tgid t3);
            uid := to_u32 (uid_gid t3);
            data_len := to_u32 ret;
            type := to_u8 (kind_type k);
            data := store_bytes bs (data slot);
            comm := bpf_get_current_comm (task_comm t3) (comm slot) sizeof_comm |}.
  rewrite (ssl_return_emits k t3 ret buf2 slot rb1 bs st2 Hst2);
    [|unfold MAX_DATA_SIZE; lia|now rewrite Hev2
     |unfold MAX_DATA_SIZE; now rewrite land_mask_small by lia].
  rewrite committed_submit, (reserve_committed _ _ _ _ Hres).
  split; [reflexivity|]. split.
  - simpl. rewrite <- (read_bytes_length _ _ _ _ Hread). apply take_store_bytes.
  - assert (Hgone : args_of k (snd (ssl_return k t3 ret st2)) !! pid_tgid t4 = None).
    { rewrite ssl_return_args, H4, H3. apply lookup_delete_eq. }
    destruct k; simpl in *;
      [unfold ssl_read_return at 1|unfold ssl_write_return at 1];
      unfold bpf_map_lookup_elem; now rewrite Hgone.
Qed.

Lemma overlapping_entries_resolve_to_last_witness :
  exists e,
    committed (events (run [Entry Read sample_task 77 0 10;
                            Entry Read sample_task 78 65536 10;
                            Return Read sample_task 10] init_state))
      = committed (events init_state) ++ [e]
    /\ take (Z.to_nat 10) (data e) = repeat x41 10
    /\ ssl_return Read sample_task 10
         (run [Entry Read sample_task 77 0 10;
               Entry Read sample_task 78 65536 10;
               Return Read sample_task 10] init_state)
       = (0, run [Entry Read sample_task 77 0 10;
                  Entry Read sample_task 78 65536 10;
                  Return Read sample_task 10] init_state).
Proof.
  apply (overlapping_entries_resolve_to_last Read
           sample_task 77 0 10 sample_task 78 65536 10 sample_task 10
           sample_task 10 zero_event
           {| rb_max_entries := events_max_entries; rb_consumer_pos := 0;
              rb_producer_pos := 16440; rb_stale := fun _ => zero_event;
              rb_records := [] |} (repeat x41 10) init_state).
  - reflexivity.
  - reflexivity.
  - reflexivity.
  - right. vm_compute. reflexivity.
  - vm_compute. split; reflexivity.
  - reflexivity.
  - vm_compute. reflexivity.
Defined.

Lemma get_current_comm_cstr task_comm buf size :
  0 < size ->
  cstr (bpf_get_current_comm task_comm buf size)
  = take (Z.to_nat (size - 1)) (cstr task_comm).
Proof.
  intros Hsize. unfold bpf_get_current_comm, store_bytes.
  set (s := take (Z.to_nat (size - 1)) (cstr task_comm)).
  assert (Hs : (length s <= Z.to_nat (size - 1))%nat)
    by (unfold s; rewrite length_take; lia).
  destruct (Z.to_nat size - length s)%nat as [|n] eqn:Hn; [lia|].
  simpl repeat. rewrite <- !app_assoc. simpl.
  apply ProcessMonitorSpec.cstr_app_nul, ProcessMonitorSpec.forallb_take, cstr_no_nul.
Qed.

(** X7: the event of a matched return names its caller: [pid] and [tid]
    are the two halves of the thread identity, [uid] the low half of the
    credentials, the time stamp the clock at return, and the command name
    that of the current task cut to 15 bytes. *)
Theorem event_identifies_caller k t ret buf slot rb1 bs st :
  args_of k st !! pid_tgid t = Some buf ->
  0 < ret <= MAX_DATA_SIZE ->
  bpf_ringbuf_reserve (events st) sizeof_ssl_data_event = Some (slot, rb1) ->
  read_bytes (task_mem t) buf (Z.to_nat (Z.land ret (MAX_DATA_SIZE - 1))) = Some bs ->
  0 <= pid_tgid t < 2 ^ 64 ->
  exists e,
    committed (events (snd (ssl_return k t ret st))) = committed (events st) ++ [e]
    /\ pid e * 2 ^ 32 + tid e = pid_tgid t
    /\ 0 <= tid e < 2 ^ 32
    /\ uid e = uid_gid t mod 2 ^ 32
    /\ timestamp_ns e = ktime_ns t
    /\ type e = kind_type k
    /\ cstr (comm e) = take 15 (cstr (task_comm t)).
Proof.
  intros Hkey Hret Hres Hread Hid.
  rewrite (ssl_return_emits k t ret buf slot rb1 bs st Hkey Hret Hres Hread).
  eexists. rewrite committed_submit, (reserve_committed _ _ _ _ Hres).
  split; [reflexivity|]. simpl.
  assert (Hhigh : to_u32 (Z.shiftr (pid_tgid t) 32) = pid_tgid t / 2 ^ 32).
  { rewrite Z.shiftr_div_pow2 by lia. apply to_u32_small.
    split; [apply Z.div_pos; lia|]. apply Z.div_lt_upper_bound; lia. }
  rewrite Hhigh. unfold to_u32. repeat split.
  - pose proof (Z.div_mod (pid_tgid t) (2 ^ 32)). lia.
  - apply Z.mod_pos_bound. lia.
  - apply Z.mod_pos_bound. lia.
  - now destruct k.
  - now apply get_current_comm_cstr.
Qed.

Lemma event_identifies_caller_witness :
  exists e,
    committed (events (snd (ssl_return Write sample_task 10 sample_pending)))
      = committed (events sample_pending) ++ [e]
    /\ pid e * 2 ^ 32 + tid e = pid_tgid sample_task
    /\ 0 <= tid e < 2 ^ 32
    /\ uid e = uid_gid sample_task mod 2 ^ 32
    /\ timestamp_ns e = ktime_ns sample_task
    /\ type e = kind_type Write
    /\ cstr (comm e) = take 15 (cstr (task_comm sample_task)).
Proof.
  apply (event_identifies_caller Write sample_task 10 4096 zero_event
           {| rb_max_entries := events_max_entries; rb_consumer_pos := 0;
              rb_producer_pos := 16440; rb_stale := fun _ => zero_event;
              rb_records := [] |} (repeat x41 10) sample_pending).
  - vm_compute. reflexivity.
  - vm_compute. split; [reflexivity|discriminate].
  - reflexivity.
  - vm_compute. reflexivity.
  - vm_compute. split; [discriminate|reflexivity].
Defined.

(** X8: the copy stays within the payload.  Whatever the result, an
    event a matched return commits has a payload of [MAX_DATA_SIZE] bytes
    when the slot had one, and the bytes from offset [ret] on are those
    the slot held before: they are neither cleared nor overwritten. *)
Theorem copy_stays_within_payload k t ret buf slot rb1 st :
  args_of k st !! pid_tgid t = Some buf ->
  bpf_ringbuf_reserve (events st) sizeof_ssl_data_event = Some (slot, rb1) ->
  length (data slot) = Z.to_nat MAX_DATA_SIZE ->
  committed (events (snd (ssl_return k t ret st))) = committed (events st)
  \/ exists e,
       committed (events (snd (ssl_return k t ret st))) = committed (events st) ++ [e]
       /\ length (data e) = Z.to_nat MAX_DATA_SIZE
       /\ drop (Z.to_nat ret) (data e) = drop (Z.to_nat ret) (data slot).
Proof.
  intros Hkey Hres Hslot.
  rewrite ssl_return_events, Hkey.
  destruct (Z.ltb_spec 0 ret) as [Hpos|]; [|now left].
  destruct (emit_ssl_event_cases t buf ret (kind_type k) (events st))
    as [_ [[_ ->]|[(_ & _ & ->)|[(slot' & rb1' & _ & Hres' & _ & ->)
                                |(slot' & rb1' & bs & Hlen & Hres' & Hread & ->)]]]].
  - now left.
  - now left.
  - left. rewrite committed_discard. eapply reserve_committed, Hres'.
  - right. assert (slot' = slot /\ rb1' = rb1) as [-> ->] by (split; congruence).
    eexists. rewrite committed_submit, (reserve_committed _ _ _ _ Hres).
    split; [reflexivity|]. simpl.
    apply read_bytes_length in Hread. unfold MAX_DATA_SIZE in *.
    destruct (Z.eq_dec ret 16384) as [->|Hne].
    + change (Z.to_nat (Z.land 16384 (16384 - 1))) with 0%nat in Hread.
      destruct bs; [|discriminate]. unfold store_bytes. simpl.
      split; [exact Hslot|reflexivity].
    + rewrite land_mask_small in Hread by lia. split.
      * rewrite length_store_bytes; [exact Hslot|].
        rewrite Hread, Hslot. lia.
      * unfold store_bytes. rewrite <- Hread. now rewrite drop_app_length.
Qed.

Lemma copy_stays_within_payload_witness :
  committed (events (snd (ssl_return Write sample_task 10 sample_pending)))
    = committed (events sample_pending)
  \/ exists e,
       committed (events (snd (ssl_return Write sample_task 10 sample_pending)))
         = committed (events sample_pending) ++ [e]
       /\ length (data e) = Z.to_nat MAX_DATA_SIZE
       /\ drop (Z.to_nat 10) (data e) = drop (Z.to_nat 10) (data zero_event).
Proof.
  apply (copy_stays_within_payload Write sample_task 10 4096 zero_event
           {| rb_max_entries := events_max_entries; rb_consumer_pos := 0;
              rb_producer_pos := 16440; rb_stale := fun _ => zero_event;
              rb_records := [] |} sample_pending).
  - vm_compute. reflexivity.
  - reflexivity.
  - vm_compute. reflexivity.
Defined.

(** *** The event channel *)

(** X9: the channel only grows.  After any sequence of firings the
    committed events are those committed before, in their order, followed
    by at most one event per return whose result passed the guards; each
    new event is a READ or a WRITE. *)
Theorem channel_is_append_only cs st :
  exists new,
    committed (events (run cs st)) = committed (events st) ++ new
    /\ (length new <= count_may_emit cs)%nat
    /\ Forall known_type new.
Proof.
  revert st. induction cs as [|c cs IH]; intros st.
  - exists []. simpl. rewrite app_nil_r. repeat split; [lia|constructor].
  - simpl run. change (fold_left step cs (step st c)) with (run cs (step st c)).
    destruct (IH (step st c)) as (new & -> & Hlen & Hty).
    destruct c as [k t ssl buf num|k t ret]; simpl step.
    + exists new. rewrite ssl_entry_events. repeat split; [simpl; lia|exact Hty].
    + destruct (ssl_return_committed k t ret st) as [->|[Hret (e & -> & _ & He)]].
      * exists new. repeat split; [simpl; lia|exact Hty].
      * exists (e :: new). rewrite <- app_assoc. simpl.
        destruct (Z.ltb_spec 0 ret); [|lia].
        destruct (Z.leb_spec ret MAX_DATA_SIZE); [|lia]. simpl.
        repeat split; [lia|]. constructor; [|exact Hty].
        unfold known_type. rewrite He. destruct k; auto.
Qed.

(** X10: when the ring has no room, a matched return commits nothing and
    leaves the ring as it was; the correlation entry is removed all the
    same. *)
Theorem full_ring_drops_event k t ret buf st :
  args_of k st !! pid_tgid t = Some buf ->
  bpf_ringbuf_reserve (events st) sizeof_ssl_data_event = None ->
  events (snd (ssl_return k t ret st)) = events st
  /\ args_of k (snd (ssl_return k t ret st)) !! pid_tgid t = None.
Proof.
  intros Hkey Hfull. split.
  - rewrite ssl_return_events, Hkey.
    destruct (0 <? ret); [|reflexivity].
    destruct (emit_ssl_event_cases t buf ret (kind_type k) (events st))
      as [_ [[_ ->]|[(_ & _ & ->)|[(slot & rb1 & _ & Hres & _)
                                  |(slot & rb1 & bs & _ & Hres & _)]]]];
      congruence.
  - rewrite ssl_return_args. apply lookup_delete_eq.
Qed.

Lemma full_ring_drops_event_witness :
  events (snd (ssl_return Write sample_task 10 sample_ring_full))
    = events sample_ring_full
  /\ args_of Write (snd (ssl_return Write sample_task 10 sample_ring_full))
       !! pid_tgid sample_task = None.
Proof.
  apply (full_ring_drops_event Write sample_task 10 4096 sample_ring_full).
  - vm_compute. reflexivity.
  - vm_compute. reflexivity.
Defined.

Lemma reserve_accounting {T : Type} (rb : ringbuf T) size slot rb1 :
  bpf_ringbuf_reserve rb size = Some (slot, rb1) ->
  rb_producer_pos rb1 = rb_producer_pos rb + round_up (size + BPF_RINGBUF_HDR_SZ) 8
  /\ rb_consumer_pos rb1 = rb_consumer_pos rb
  /\ rb_max_entries rb1 = rb_max_entries rb
  /\ rb_records rb1 = rb_records rb
  /\ rb_producer_pos rb1 - rb_consumer_pos rb1 <= rb_max_entries rb1 - 1.
Proof.
  unfold bpf_ringbuf_reserve.
  destruct (Z.ltb_spec (rb_max_entries rb)
              (round_up (size + BPF_RINGBUF_HDR_SZ) 8)); [discriminate|].
  destruct (Z.ltb_spec (rb_max_entries rb - 1)
              (rb_producer_pos rb + round_up (size + BPF_RINGBUF_HDR_SZ) 8
               - rb_consumer_pos rb)); [discriminate|].
  intros [= <- <-]. simpl. repeat split; lia.
Qed.

(** A firing leaves the ring alone or reserves one record and closes it. *)
Lemma step_ring st c :
  events (step st c) = events st
  \/ exists slot rb1 r,
       bpf_ringbuf_reserve (events st) sizeof_ssl_data_event = Some (slot, rb1)
       /\ events (step st c) = rb_push r rb1.
Proof.
  destruct c as [k t ssl buf num|k t ret]; simpl step.
  - left. apply ssl_entry_events.
  - rewrite ssl_return_events.
    destruct (args_of k st !! pid_tgid t) as [buf|]; [|now left].
    destruct (0 <? ret); [|now left].
    destruct (emit_ssl_event_cases t buf ret (kind_type k) (events st))
      as [_ [[_ ->]|[(_ & _ & ->)|[(slot & rb1 & _ & Hres & _ & ->)
                                  |(slot & rb1 & bs & _ & Hres & _ & ->)]]]].
    + now left.
    + now left.
    + right. exists slot, rb1, Discarded. split; [exact Hres|reflexivity].
    + right. eexists slot, rb1, (Submitted _). split; [exact Hres|reflexivity].
Qed.

(** X11: the ring is never overcommitted.  While the consumer stands
    still, every record written, committed or discarded, takes
    [ssl_record_size] bytes of the ring, and the bytes in use stay below
    the size of the ring. *)
Theorem ring_never_overcommitted cs st :
  rb_used (events st) <= rb_max_entries (events st) - 1 ->
  exists n : nat,
    length (rb_records (events (run cs st)))
      = (length (rb_records (events st)) + n)%nat
    /\ rb_used (events (run cs st))
       = rb_used (events st) + ssl_record_size * Z.of_nat n
    /\ rb_used (events (run cs st)) <= rb_max_entries (events st) - 1
    /\ rb_max_entries (events (run cs st)) = rb_max_entries (events st).
Proof.
  revert st. induction cs as [|c cs IH]; intros st Hused.
  - exists 0%nat. simpl. repeat split; lia.
  - simpl run. change (fold_left step cs (step st c)) with (run cs (step st c)).
    destruct (step_ring st c) as [Hsame|(slot & rb1 & r & Hres & Hstep)].
    + destruct (IH (step st c)) as (n & Hrec & Huse & Hle & Hmax);
        [now rewrite Hsame|].
      rewrite Hsame in Hrec, Huse, Hle, Hmax.
      exists n. repeat split; assumption.
    + destruct (reserve_accounting _ _ _ _ Hres) as (Hp & Hc & Hm & Hr & Hfit).
      assert (Hused1 : rb_used (events (step st c))
                       = rb_used (events st) + ssl_record_size).
      { unfold rb_used, ssl_record_size. rewrite Hstep. simpl. lia. }
      assert (Hmax1 : rb_max_entries (events (step st c))
                      = rb_max_entries (events st)).
      { rewrite Hstep. simpl. exact Hm. }
      assert (Hrec1 : length (rb_records (events (step st c)))
                      = S (length (rb_records (events st)))).
      { rewrite Hstep. simpl. rewrite length_app, Hr. simpl. lia. }
      destruct (IH (step st c)) as (n & Hrec & Huse & Hle & Hmax).
      { rewrite Hmax1. unfold rb_used. rewrite Hstep. simpl. lia. }
      rewrite Hrec1 in Hrec. rewrite Hused1 in Huse. rewrite Hmax1 in Hle, Hmax.
      exists (S n). repeat split; lia.
Qed.

Lemma ring_never_overcommitted_witness :
  exists n : nat,
    length (rb_records (events (run [Return Write sample_task 10] sample_ring_full)))
      = (length (rb_records (events sample_ring_full)) + n)%nat
    /\ rb_used (events (run [Return Write sample_task 10] sample_ring_full))
       = rb_used (events sample_ring_full) + ssl_record_size * Z.of_nat n
    /\ rb_used (events (run [Return Write sample_task 10] sample_ring_full))
       <= rb_max_entries (events sample_ring_full) - 1
    /\ rb_max_entries (events (run [Return Write sample_task 10] sample_ring_full))
       = rb_max_entries (events sample_ring_full).
Proof.
  apply (ring_never_overcommitted [Return Write sample_task 10] sample_ring_full).
  vm_compute. discriminate.
Defined.

End SslMonitorExtra.

(** ** Further properties of the process lifecycle program *)

Module ProcessMonitorExtra.
Import Bpf BpfFacts ProcessMonitor ProcessMonitorSpec.

(** *** Reading the path *)

(** Reading a string where the bytes [bs] hold no NUL: the string read
    starts with [bs] and goes on with what the last byte gives. *)
Lemma read_cstr_cut m : forall bs a b n,
  read_bytes m a n = Some (bs ++ [b]) ->
  forallb (fun b => negb (is_nul b)) bs = true ->
  read_cstr m a n = Some (bs ++ cstr [b]).
Proof.
  induction bs as [|b0 bs IH]; intros a b n Hread Hbs.
  - destruct n as [|n]; [discriminate|]. simpl in *.
    destruct (m a) as [b'|]; [|discriminate].
    destruct (read_bytes m (a + 1) n) as [rest|] eqn:Hrest; [|discriminate].
    injection Hread as -> ->.
    destruct n; [|simpl in Hrest; repeat case_match; discriminate].
    destruct (is_nul b); reflexivity.
  - destruct n as [|n]; [discriminate|]. simpl in *.
    destruct (m a) as [b'|]; [|discriminate].
    destruct (read_bytes m (a + 1) n) as [rest|] eqn:Hrest; [|discriminate].
    injection Hread as -> ->.
    apply andb_true_iff in Hbs as [Hb0 Hbs].
    destruct (is_nul b0); [discriminate|].
    now rewrite (IH (a + 1) b n Hrest Hbs).
Qed.

Lemma read_cstr_terminated m : forall s n a,
  read_bytes m a (length s + 1) = Some (s ++ [NUL]) ->
  forallb (fun b => negb (is_nul b)) s = true ->
  (length s < n)%nat ->
  read_cstr m a n = Some s.
Proof.
  induction s as [|b s IH]; intros n a Hread Hs Hn.
  - destruct n; [lia|]. simpl in *.
    destruct (m a) as [b|]; [|discriminate]. injection Hread as ->.
    reflexivity.
  - destruct n; [lia|]. simpl in *.
    destruct (m a) as [b'|]; [|discriminate].
    destruct (read_bytes m (a + 1) (length s + 1)) as [bs'|] eqn:Hrest;
      [|discriminate].
    injection Hread as -> ->.
    apply andb_true_iff in Hs as [Hb Hs].
    destruct (is_nul b); [discriminate|].
    rewrite (IH n (a + 1) Hrest Hs) by lia. reflexivity.
Qed.

Lemma exec_event ctx t rb slot rb1 :
  bpf_ringbuf_reserve rb sizeof_process_event = Some (slot, rb1) ->
  committed (snd (trace_exec ctx t rb)) =
  committed rb ++
  [{| timestamp_ns := ktime_ns t;
      pid := to_u32 (Z.shiftr (pid_tgid t) 32);
      ppid := to_u32 (real_parent_tgid t);
      uid := to_u32 (uid_gid t);
      gid := to_u32 (Z.shiftr (uid_gid t) 32);
      type := PROC_EXEC;
      exit_code := 0;
      comm := bpf_get_current_comm (task_comm t) (comm slot) TASK_COMM_LEN;
      exe := snd (bpf_probe_read_str (task_mem t) (exe slot) MAX_PATH_LEN
                    (filename ctx));
      args := args slot |}].
Proof.
  intros Hres. unfold trace_exec. rewrite Hres. simpl.
  now rewrite committed_submit, (reserve_committed _ _ _ _ Hres).
Qed.

(** X12: a path of [MAX_PATH_LEN - 1] bytes or more is cut.  When the
    [MAX_PATH_LEN] bytes the helper reads are readable and the first
    [MAX_PATH_LEN - 1] of them hold no NUL, the exec event holds these
    [MAX_PATH_LEN - 1] bytes followed by a NUL, with kind EXEC and
    auxiliary code 0. *)
Theorem exec_long_path_truncated ctx t rb slot rb1 bs b :
  bpf_ringbuf_reserve rb sizeof_process_event = Some (slot, rb1) ->
  read_bytes (task_mem t) (filename ctx) (Z.to_nat MAX_PATH_LEN) = Some (bs ++ [b]) ->
  forallb (fun b => negb (is_nul b)) bs = true ->
  exists e,
    committed (snd (trace_exec ctx t rb)) = committed rb ++ [e]
    /\ type e = PROC_EXEC
    /\ exit_code e = 0
    /\ take (Z.to_nat MAX_PATH_LEN) (exe e) = bs ++ [NUL].
Proof.
  intros Hres Hread Hbs.
  assert (Hlen : length bs = Z.to_nat (MAX_PATH_LEN - 1)).
  { apply read_bytes_length in Hread. rewrite length_app in Hread. simpl in Hread.
    change (Z.to_nat MAX_PATH_LEN) with 256%nat in Hread.
    change (Z.to_nat (MAX_PATH_LEN - 1)) with 255%nat. lia. }
  eexists. split; [apply (exec_event ctx t rb slot rb1 Hres)|]. simpl.
  split; [reflexivity|]. split; [reflexivity|].
  unfold bpf_probe_read_str. change (MAX_PATH_LEN <=? 0) with false. cbv iota.
  rewrite (read_cstr_cut _ _ _ _ _ Hread Hbs). cbv zeta.
  assert (Hcut : take (Z.to_nat (MAX_PATH_LEN - 1)) (bs ++ cstr [b]) = bs).
  { rewrite <- Hlen. now rewrite take_app_length. }
  rewrite Hcut. cbn [snd].
  replace (Z.to_nat MAX_PATH_LEN) with (length (bs ++ [NUL])).
  - apply take_store_bytes.
  - rewrite length_app, Hlen. reflexivity.
Qed.

Lemma exec_long_path_truncated_witness :
  exists e,
    committed (snd (trace_exec {| filename := 8192 |} sample_proc dirty_ring))
      = committed dirty_ring ++ [e]
    /\ type e = PROC_EXEC
    /\ exit_code e = 0
    /\ take (Z.to_nat MAX_PATH_LEN) (exe e) = repeat x2f 255 ++ [NUL].
Proof.
  apply (exec_long_path_truncated {| filename := 8192 |} sample_proc dirty_ring
           dirty_event
           {| rb_max_entries := events_max_entries; rb_consumer_pos := 0;
              rb_producer_pos := 568; rb_stale := fun _ => dirty_event;
              rb_records := [] |} (repeat x2f 255) x2f).
  - reflexivity.
  - vm_compute. reflexivity.
  - vm_compute. reflexivity.
Defined.

(** X13: a path shorter than [MAX_PATH_LEN - 1] bytes is recorded whole:
    the string in the [exe] field of the exec event is the path. *)
Theorem exec_short_path_copied ctx t rb slot rb1 s :
  bpf_ringbuf_reserve rb sizeof_process_event = Some (slot, rb1) ->
  read_bytes (task_mem t) (filename ctx) (length s + 1) = Some (s ++ [NUL]) ->
  forallb (fun b => negb (is_nul b)) s = true ->
  Z.of_nat (length s) < MAX_PATH_LEN - 1 ->
  exists e,
    committed (snd (trace_exec ctx t rb)) = committed rb ++ [e]
    /\ type e = PROC_EXEC
    /\ cstr (exe e) = s.
Proof.
  intros Hres Hread Hs Hlen.
  eexists. split; [apply (exec_event ctx t rb slot rb1 Hres)|]. simpl.
  split; [reflexivity|].
  unfold bpf_probe_read_str. change (MAX_PATH_LEN <=? 0) with false. cbv iota.
  rewrite (read_cstr_terminated _ s _ _ Hread Hs) by lia. simpl snd.
  rewrite take_ge by lia.
  unfold store_bytes. rewrite <- app_assoc. simpl.
  now apply cstr_app_nul.
Qed.

Lemma exec_short_path_copied_witness :
  exists e,
    committed (snd (trace_exec {| filename := 8489 |} sample_proc dirty_ring))
      = committed dirty_ring ++ [e]
    /\ type e = PROC_EXEC
    /\ cstr (exe e) = [x2f; x2f; x2f].
Proof.
  apply (exec_short_path_copied {| filename := 8489 |} sample_proc dirty_ring
           dirty_event
           {| rb_max_entries := events_max_entries; rb_consumer_pos := 0;
              rb_producer_pos := 568; rb_stale := fun _ => dirty_event;
              rb_records := [] |} [x2f; x2f; x2f]).
  - reflexivity.
  - vm_compute. reflexivity.
  - reflexivity.
  - vm_compute. reflexivity.
Defined.

(** X14: when the path cannot be read, the exec handler commits the
    event all the same (it does not look at the result of the read), with
    an empty [exe] field. *)
Theorem exec_unreadable_path_still_emitted ctx t rb slot rb1 :
  bpf_ringbuf_reserve rb sizeof_process_event = Some (slot, rb1) ->
  task_mem t (filename ctx) = None ->
  exists e,
    committed (snd (trace_exec ctx t rb)) = committed rb ++ [e]
    /\ type e = PROC_EXEC
    /\ take (Z.to_nat MAX_PATH_LEN) (exe e) = repeat NUL (Z.to_nat MAX_PATH_LEN)
    /\ cstr (exe e) = [].
Proof.
  intros Hres Hfault.
  eexists. split; [apply (exec_event ctx t rb slot rb1 Hres)|]. simpl.
  split; [reflexivity|].
  unfold bpf_probe_read_str. change (MAX_PATH_LEN <=? 0) with false. cbv iota.
  change (Z.to_nat MAX_PATH_LEN) with 256%nat.
  cbn [read_cstr]. rewrite Hfault. simpl snd. split.
  - rewrite <- (repeat_length NUL (Z.to_nat MAX_PATH_LEN)) at 1.
    apply take_store_bytes.
  - reflexivity.
Qed.

Lemma exec_unreadable_path_still_emitted_witness :
  exists e,
    committed (snd (trace_exec {| filename := 0 |} sample_proc dirty_ring))
      = committed dirty_ring ++ [e]
    /\ type e = PROC_EXEC
    /\ take (Z.to_nat MAX_PATH_LEN) (exe e) = repeat NUL (Z.to_nat MAX_PATH_LEN)
    /\ cstr (exe e) = [].
Proof.
  apply (exec_unreadable_path_still_emitted {| filename := 0 |} sample_proc
           dirty_ring dirty_event
           {| rb_max_entries := events_max_entries; rb_consumer_pos := 0;
              rb_producer_pos := 568; rb_stale := fun _ => dirty_event;
              rb_records := [] |}).
  - reflexivity.
  - reflexivity.
Defined.

Lemma read_cstr_fault m : forall bs a n,
  read_bytes m a (length bs) = Some bs ->
  forallb (fun b => negb (is_nul b)) bs = true ->
  m (a + Z.of_nat (length bs)) = None ->
  (length bs < n)%nat ->
  read_cstr m a n = None.
Proof.
  induction bs as [|b bs IH]; intros a n Hread Hbs Hfault Hn.
  - destruct n; [lia|]. simpl in *. rewrite Z.add_0_r in Hfault.
    now rewrite Hfault.
  - destruct n; [simpl in Hn; lia|]. simpl in *.
    destruct (m a) as [b'|]; [|reflexivity].
    destruct (read_bytes m (a + 1) (length bs)) as [rest|] eqn:Hrest;
      [|discriminate].
    injection Hread as -> ->.
    apply andb_true_iff in Hbs as [Hb Hbs].
    destruct (is_nul b); [discriminate|].
    rewrite (IH (a + 1) n Hrest Hbs); [reflexivity| |lia].
    rewrite <- Hfault. f_equal. lia.
Qed.

(** X19: the helper reads [MAX_PATH_LEN] bytes of a long path, not
    [MAX_PATH_LEN - 1].  When the first [MAX_PATH_LEN - 1] bytes are
    readable and hold no NUL but the next byte faults, the read fails as a
    whole: the exec event is committed with an empty [exe] field. *)
Theorem exec_path_fault_at_last_byte ctx t rb slot rb1 bs :
  bpf_ringbuf_reserve rb sizeof_process_event = Some (slot, rb1) ->
  read_bytes (task_mem t) (filename ctx) (Z.to_nat (MAX_PATH_LEN - 1)) = Some bs ->
  forallb (fun b => negb (is_nul b)) bs = true ->
  task_mem t (filename ctx + (MAX_PATH_LEN - 1)) = None ->
  exists e,
    committed (snd (trace_exec ctx t rb)) = committed rb ++ [e]
    /\ type e = PROC_EXEC
    /\ take (Z.to_nat MAX_PATH_LEN) (exe e) = repeat NUL (Z.to_nat MAX_PATH_LEN)
    /\ cstr (exe e) = [].
Proof.
  intros Hres Hread Hbs Hfault.
  pose proof (read_bytes_length _ _ _ _ Hread) as Hlen.
  eexists. split; [apply (exec_event ctx t rb slot rb1 Hres)|]. simpl.
  split; [reflexivity|].
  unfold bpf_probe_read_str. change (MAX_PATH_LEN <=? 0) with false. cbv iota.
  rewrite (read_cstr_fault (task_mem t) bs).
  - cbn [snd]. split; [|reflexivity].
    rewrite <- (repeat_length NUL (Z.to_nat MAX_PATH_LEN)) at 1.
    apply take_store_bytes.
  - now rewrite Hlen.
  - exact Hbs.
  - rewrite Hlen. exact Hfault.
  - rewrite Hlen. vm_compute. lia.
Qed.

Lemma exec_path_fault_at_last_byte_witness :
  exists e,
    committed (snd (trace_exec {| filename := 3841 |} sample_edge_proc dirty_ring))
      = committed dirty_ring ++ [e]
    /\ type e = PROC_EXEC
    /\ take (Z.to_nat MAX_PATH_LEN) (exe e) = repeat NUL (Z.to_nat MAX_PATH_LEN)
    /\ cstr (exe e) = [].
Proof.
  apply (exec_path_fault_at_last_byte {| filename := 3841 |} sample_edge_proc dirty_ring
           dirty_event
           {| rb_max_entries := events_max_entries; rb_consumer_pos := 0;
              rb_producer_pos := 568; rb_stale := fun _ => dirty_event;
              rb_records := [] |} (repeat x2f 255)).
  - reflexivity.
  - vm_compute. reflexivity.
  - vm_compute. reflexivity.
  - vm_compute. reflexivity.
Defined.

(** *** The identity fields *)

Lemma high_half x : 0 <= x < 2 ^ 64 -> to_u32 (Z.shiftr x 32) = x / 2 ^ 32.
Proof.
  intros Hx. rewrite Z.shiftr_div_pow2 by lia. apply to_u32_small.
  split; [apply Z.div_pos; lia|]. apply Z.div_lt_upper_bound; lia.
Qed.

Lemma halves_join x : 0 <= x < 2 ^ 64 -> to_u32 x + 2 ^ 32 * to_u32 (Z.shiftr x 32) = x.
Proof.
  intros Hx. rewrite high_half by exact Hx. unfold to_u32.
  pose proof (Z.div_mod x (2 ^ 32)). lia.
Qed.

(** X15: the exec event records the current task: [pid] is the
    thread-group half of the thread identity, [ppid] the thread group of
    the parent, [uid] and [gid] the two halves of the credentials, the
    command name that of the task cut to 15 bytes; the auxiliary code
    is 0. *)
Theorem exec_event_fields ctx t rb slot rb1 :
  bpf_ringbuf_reserve rb sizeof_process_event = Some (slot, rb1) ->
  0 <= pid_tgid t < 2 ^ 64 ->
  0 <= uid_gid t < 2 ^ 64 ->
  0 <= real_parent_tgid t < 2 ^ 31 ->
  exists e,
    committed (snd (trace_exec ctx t rb)) = committed rb ++ [e]
    /\ type e = PROC_EXEC
    /\ exit_code e = 0
    /\ records_task t e.
Proof.
  intros Hres Hid Hcred Hparent.
  eexists. split; [apply (exec_event ctx t rb slot rb1 Hres)|].
  unfold records_task. simpl. repeat split.
  - now apply high_half.
  - apply to_u32_small. lia.
  - now apply halves_join.
  - now apply SslMonitorExtra.get_current_comm_cstr.
Qed.

Lemma exec_event_fields_witness :
  exists e,
    committed (snd (trace_exec {| filename := 8192 |} sample_proc dirty_ring))
      = committed dirty_ring ++ [e]
    /\ type e = PROC_EXEC
    /\ exit_code e = 0
    /\ records_task sample_proc e.
Proof.
  apply (exec_event_fields {| filename := 8192 |} sample_proc dirty_ring dirty_event
           {| rb_max_entries := events_max_entries; rb_consumer_pos := 0;
              rb_producer_pos := 568; rb_stale := fun _ => dirty_event;
              rb_records := [] |}).
  - reflexivity.
  - vm_compute. split; [discriminate|reflexivity].
  - vm_compute. split; [discriminate|reflexivity].
  - vm_compute. split; [discriminate|reflexivity].
Defined.

(** X16: the exit event records the current task in the same way, with
    kind EXIT and the exit code of the task as auxiliary code. *)
Theorem exit_event_fields ctx t rb slot rb1 :
  bpf_ringbuf_reserve rb sizeof_process_event = Some (slot, rb1) ->
  0 <= pid_tgid t < 2 ^ 64 ->
  0 <= uid_gid t < 2 ^ 64 ->
  0 <= real_parent_tgid t < 2 ^ 31 ->
  - 2 ^ 31 <= task_exit_code t < 2 ^ 31 ->
  exists e,
    committed (snd (trace_exit ctx t rb)) = committed rb ++ [e]
    /\ type e = PROC_EXIT
    /\ exit_code e = task_exit_code t
    /\ records_task t e.
Proof.
  intros Hres Hid Hcred Hparent Hcode.
  unfold trace_exit. rewrite Hres. simpl.
  eexists. rewrite committed_submit, (reserve_committed _ _ _ _ Hres).
  split; [reflexivity|].
  unfold records_task. simpl. repeat split.
  - now apply to_s32_small.
  - now apply high_half.
  - apply to_u32_small. lia.
  - now apply halves_join.
  - now apply SslMonitorExtra.get_current_comm_cstr.
Qed.

Lemma exit_event_fields_witness :
  exists e,
    committed (snd (trace_exit sample_exit sample_proc dirty_ring))
      = committed dirty_ring ++ [e]
    /\ type e = PROC_EXIT
    /\ exit_code e = 256
    /\ records_task sample_proc e.
Proof.
  apply (exit_event_fields sample_exit sample_proc dirty_ring dirty_event
           {| rb_max_entries := events_max_entries; rb_consumer_pos := 0;
              rb_producer_pos := 568; rb_stale := fun _ => dirty_event;
              rb_records := [] |}).
  - reflexivity.
  - vm_compute. split; [discriminate|reflexivity].
  - vm_compute. split; [discriminate|reflexivity].
  - vm_compute. split; [discriminate|reflexivity].
  - vm_compute. split; [discriminate|reflexivity].
Defined.

(** *** The event channel *)

(** A firing commits one event of a known kind when the ring has room,
    and leaves the ring alone when it has none. *)
Lemma handle_cases f t rb :
  fst (handle f t rb) = 0
  /\ ((bpf_ringbuf_reserve rb sizeof_process_event = None /\ snd (handle f t rb) = rb)
      \/ exists slot rb1 e,
           bpf_ringbuf_reserve rb sizeof_process_event = Some (slot, rb1)
           /\ snd (handle f t rb) = bpf_ringbuf_submit e rb1
           /\ known_kind e).
Proof.
  destruct f as [ctx|ctx|ctx]; simpl;
    [unfold trace_exec|unfold trace_exit|unfold trace_fork];
    destruct (bpf_ringbuf_reserve rb sizeof_process_event) as [[slot rb1]|];
    simpl; (split; [reflexivity|]); try (left; split; reflexivity);
    right; eexists slot, rb1, _; (split; [reflexivity|]);
    (split; [reflexivity|]); unfold known_kind; simpl; auto.
Qed.

(** X17: the three handlers only add to the channel.  After any
    sequence of firings the committed events are those committed before,
    in their order, followed by at most one event per firing, each of kind
    EXEC, EXIT or FORK. *)
Theorem lifecycle_channel_is_append_only fs rb :
  exists new,
    committed (run_firings fs rb) = committed rb ++ new
    /\ (length new <= length fs)%nat
    /\ Forall known_kind new.
Proof.
  revert rb. induction fs as [|[f t] fs IH]; intros rb.
  - exists []. simpl. rewrite app_nil_r. repeat split; [lia|constructor].
  - simpl run_firings.
    change (fold_left _ fs ?r) with (run_firings fs r).
    destruct (IH (snd (handle f t rb))) as (new & -> & Hlen & Hkind).
    destruct (handle_cases f t rb)
      as [_ [[_ ->]|(slot & rb1 & e & Hres & -> & He)]].
    + exists new. repeat split; [simpl; lia|exact Hkind].
    + exists (e :: new).
      rewrite committed_submit, (reserve_committed _ _ _ _ Hres), <- app_assoc.
      repeat split; [simpl; lia|]. now constructor.
Qed.

(** The event a firing commits when the ring has room is its own. *)
Lemma handle_commits_own f t rb slot rb1 :
  bpf_ringbuf_reserve rb sizeof_process_event = Some (slot, rb1) ->
  exists e,
    snd (handle f t rb) = bpf_ringbuf_submit e rb1
    /\ event_of_firing (f, t) e.
Proof.
  intros Hres.
  destruct f as [ctx|ctx|ctx]; simpl;
    [unfold trace_exec|unfold trace_exit|unfold trace_fork];
    rewrite Hres; simpl; eexists; (split; [reflexivity|]);
    unfold event_of_firing; simpl; auto.
Qed.

Lemma handle_drops f t rb :
  bpf_ringbuf_reserve rb sizeof_process_event = None ->
  snd (handle f t rb) = rb.
Proof.
  intros Hres.
  destruct f as [ctx|ctx|ctx]; simpl;
    [unfold trace_exec|unfold trace_exit|unfold trace_fork];
    now rewrite Hres.
Qed.

(** A ring that started empty and was not consumed: [c] events committed,
    [record_size * c] bytes in use. *)
Lemma unconsumed_ring_run fs : forall rb,
  rb_max_entries rb = events_max_entries ->
  rb_consumer_pos rb = 0 ->
  rb_producer_pos rb = record_size * Z.of_nat (length (committed rb)) ->
  (length (committed rb) <= ring_room)%nat ->
  exists new,
    committed (run_firings fs rb) = committed rb ++ new
    /\ Forall2 event_of_firing (take (ring_room - length (committed rb)) fs) new
    /\ run_firings fs rb
       = run_firings (take (ring_room - length (committed rb)) fs) rb.
Proof.
  induction fs as [|[f t] fs IH]; intros rb Hmax Hcons Hprod Hroom.
  - exists []. rewrite take_nil. simpl. rewrite app_nil_r.
    repeat split. constructor.
  - simpl run_firings at 1 2.
    change (fold_left _ fs ?r) with (run_firings fs r).
    change ring_room with 461%nat in *. change record_size with 568 in *.
    destruct (bpf_ringbuf_reserve rb sizeof_process_event) as [[slot rb1]|] eqn:Hres.
    + destruct (handle_commits_own f t rb slot rb1 Hres) as (e & Hnext & He).
      destruct (SslMonitorExtra.reserve_accounting _ _ _ _ Hres)
        as (Hp & Hc & Hm & _ & Hfit).
      change (round_up (sizeof_process_event + BPF_RINGBUF_HDR_SZ) 8)
        with 568 in Hp.
      assert (Hcom : committed (snd (handle f t rb)) = committed rb ++ [e]).
      { now rewrite Hnext, committed_submit, (reserve_committed _ _ _ _ Hres). }
      assert (Hlen : length (committed (snd (handle f t rb)))
                     = S (length (committed rb))).
      { rewrite Hcom, length_app. simpl. lia. }
      rewrite Hm, Hmax, Hc, Hcons, Hp, Hprod in Hfit.
      change events_max_entries with 262144 in Hfit.
      destruct (IH (snd (handle f t rb))) as (new & Hnew & Hall & Hrun).
      * rewrite Hnext. simpl. congruence.
      * rewrite Hnext. simpl. congruence.
      * rewrite Hlen, Hnext. simpl. rewrite Hp, Hprod. lia.
      * rewrite Hlen. lia.
      * rewrite Hlen in Hall, Hrun.
        replace (461 - length (committed rb))%nat
          with (S (461 - S (length (committed rb)))) by lia.
        exists (e :: new). rewrite Hnew, Hcom, <- app_assoc.
        split; [reflexivity|]. split; [now constructor|].
        rewrite Hrun. reflexivity.
    + assert (Hlen : length (committed rb) = 461%nat).
      { unfold bpf_ringbuf_reserve in Hres.
        rewrite Hmax, Hcons, Hprod in Hres.
        change (round_up (sizeof_process_event + BPF_RINGBUF_HDR_SZ) 8)
          with 568 in Hres.
        change events_max_entries with 262144 in Hres.
        destruct (Z.ltb_spec 262144 568); [lia|].
        destruct (Z.ltb_spec (262144 - 1)
                    (568 * Z.of_nat (length (committed rb)) + 568 - 0));
          [lia|discriminate]. }
      rewrite (handle_drops f t rb Hres).
      destruct (IH rb Hmax Hcons Hprod Hroom) as (new & Hnew & Hall & Hrun).
      rewrite Hlen in *. change (461 - 461)%nat with 0%nat in *.
      exists new. rewrite take_0 in *. repeat split; assumption.
Qed.

(** X18: a ring that starts empty and is not consumed keeps the events
    of the first [ring_room] (461) firings, one each and in their order,
    and drops every later firing: the ring after the whole sequence is the
    ring after its first [ring_room] firings. *)
Theorem unconsumed_ring_keeps_first_events fs stale :
  Forall2 event_of_firing (take ring_room fs)
    (committed (run_firings fs (rb_new events_max_entries stale)))
  /\ run_firings fs (rb_new events_max_entries stale)
     = run_firings (take ring_room fs) (rb_new events_max_entries stale)
  /\ length (committed (run_firings fs (rb_new events_max_entries stale)))
     = Nat.min (length fs) ring_room.
Proof.
  destruct (unconsumed_ring_run fs (rb_new events_max_entries stale))
    as (new & Hnew & Hall & Hrun); try reflexivity.
  { simpl. unfold ring_room. lia. }
  change (committed (rb_new events_max_entries stale)) with (@nil process_event)
    in *.
  change (length (@nil process_event)) with 0%nat in Hall, Hrun.
  rewrite Nat.sub_0_r in Hall, Hrun. simpl in Hnew.
  rewrite Hnew. split; [exact Hall|]. split; [exact Hrun|].
  apply Forall2_length in Hall. rewrite <- Hall, length_take. lia.
Qed.

End ProcessMonitorExtra.

(** ** The strings of the lifecycle events in the memory of the ring *)

Module ProcessRingSpec.
Import Bpf BpfFacts ProcessMonitor ProcessMonitorSpec.

(** *** Bytes of the ring *)

Lemma length_le_bytes n : forall x, length (le_bytes n x) = n.
Proof. induction n as [|n IH]; intros x; simpl; [reflexivity|]. now rewrite IH. Qed.

Lemma length_ring_read m pos n : length (ring_read m pos n) = n.
Proof. unfold ring_read. now rewrite length_map, length_seq. Qed.

Lemma ring_read_lookup m pos n i :
  (i < n)%nat -> ring_read m pos n !! i = Some (ring_byte m (pos + Z.of_nat i)).
Proof.
  intros Hi. unfold ring_read.
  rewrite list_lookup_fmap, lookup_seq_lt by exact Hi. reflexivity.
Qed.

Lemma ring_byte_write bs p m x :
  ring_byte (ring_write bs p m) x =
  match bs !! Z.to_nat ((x - p) mod events_max_entries) with
  | Some b => b
  | None => ring_byte m x
  end.
Proof.
  unfold ring_byte, ring_write.
  now rewrite Zminus_mod_idemp_l.
Qed.

Lemma ring_byte_shift m p x :
  ring_byte m (p + (x - p) mod events_max_entries) = ring_byte m x.
Proof.
  unfold ring_byte. rewrite Zplus_mod_idemp_r. f_equal. f_equal. lia.
Qed.

Lemma aligned_sub w p : w mod 8 = 0 -> p mod 8 = 0 ->
  ((w - p) mod events_max_entries) mod 8 = 0.
Proof.
  intros Hw Hp.
  rewrite Z.mod_mod_divide by (exists 32768; reflexivity).
  rewrite Zminus_mod, Hw, Hp. reflexivity.
Qed.

Lemma aligned_add p k : p mod 8 = 0 -> k mod 8 = 0 -> (p + k) mod 8 = 0.
Proof. intros Hp Hk. now rewrite Z.add_mod, Hp, Hk by lia. Qed.

Lemma window_offset w p i :
  (w + i - p) mod events_max_entries
  = ((w - p) mod events_max_entries + i) mod events_max_entries.
Proof. rewrite Zplus_mod_idemp_l. f_equal. lia. Qed.

(** A window of the memory read as a field is terminated. *)
Lemma window_terminated m w :
  no_long_run m -> w mod 8 = 0 ->
  nul_terminated 256 (ring_read m w 256) = true.
Proof.
  intros Hm Hw. destruct (Hm w Hw) as (i & Hi & Hnul).
  unfold nul_terminated. apply existsb_exists. exists NUL. split; [|reflexivity].
  apply list_elem_of_In, (list_elem_of_lookup_2 _ (Z.to_nat i)).
  rewrite lookup_take_lt by lia.
  rewrite ring_read_lookup by lia. rewrite Z2Nat.id by lia. now rewrite Hnul.
Qed.

Lemma written_terminated cap old new j :
  field_written cap old new j -> nul_terminated (Z.of_nat cap) new = true.
Proof.
  intros (Hj & _ & Hnul & _).
  unfold nul_terminated. apply existsb_exists. exists NUL. split; [|reflexivity].
  apply list_elem_of_In, (list_elem_of_lookup_2 _ j).
  rewrite lookup_take_lt by lia. exact Hnul.
Qed.

Lemma aligned_pos d : d mod 8 = 0 -> 0 < d -> 8 <= d.
Proof. intros Hd Hpos. Z.div_mod_to_equations. lia. Qed.

Lemma aligned_below d n : d mod 8 = 0 -> n mod 8 = 0 -> d < n -> d <= n - 8.
Proof. intros Hd Hn Hlt. Z.div_mod_to_equations. lia. Qed.

(** *** Writing a record keeps a NUL in every window

    The record written at [p] has a NUL in its header (offset 2) and at
    the offsets [o1] and [o2]; its bytes after [o2] are those the memory
    held.  A window of 256 bytes then meets one of the three NULs, or
    lies in memory the write left as it was. *)
Lemma write_keeps_windows m p bs (o1 o2 : nat) :
  no_long_run m ->
  p mod 8 = 0 ->
  Z.of_nat (length bs) <= events_max_entries ->
  bs !! 2%nat = Some NUL ->
  bs !! o1 = Some NUL ->
  bs !! o2 = Some NUL ->
  (2 <= o1 <= 258)%nat ->
  (o1 <= o2 <= o1 + 256)%nat ->
  (forall i, (o2 < i < length bs)%nat ->
             bs !! i = Some (ring_byte m (p + Z.of_nat i))) ->
  no_long_run (ring_write bs p m).
Proof.
  intros Hm Hp Hlen H0 H1 H2 Ho1 Ho2 Htail w Hw.
  set (d := (w - p) mod events_max_entries).
  assert (HN : events_max_entries = 262144) by reflexivity.
  assert (Hd : 0 <= d < events_max_entries)
    by (apply Z.mod_pos_bound; reflexivity).
  assert (Hd8 : d mod 8 = 0) by (apply aligned_sub; assumption).
  assert (Hoff : forall i, 0 <= d + i < events_max_entries ->
            Z.to_nat ((w + i - p) mod events_max_entries) = Z.to_nat (d + i)).
  { intros i Hi. rewrite window_offset. fold d. now rewrite Z.mod_small by lia. }
  pose proof (lookup_lt_Some _ _ _ H2) as Hlen2.
  destruct (Z.eq_dec d 0) as [Hd0|Hd0].
  { exists 2. split; [lia|].
    rewrite ring_byte_write, Hoff by lia. rewrite Hd0.
    change (Z.to_nat (0 + 2)) with 2%nat. now rewrite H0. }
  assert (Hd1 : 8 <= d) by (apply aligned_pos; lia).
  destruct (Z_le_gt_dec d (Z.of_nat o1)) as [Hle1|Hgt1].
  { exists (Z.of_nat o1 - d). split; [lia|].
    rewrite ring_byte_write, Hoff by lia.
    replace (d + (Z.of_nat o1 - d)) with (Z.of_nat o1) by lia.
    now rewrite Nat2Z.id, H1. }
  destruct (Z_le_gt_dec d (Z.of_nat o2)) as [Hle2|Hgt2].
  { exists (Z.of_nat o2 - d). split; [lia|].
    rewrite ring_byte_write, Hoff by lia.
    replace (d + (Z.of_nat o2 - d)) with (Z.of_nat o2) by lia.
    now rewrite Nat2Z.id, H2. }
  destruct (Z_le_gt_dec (events_max_entries - 248) d) as [Hwrap|Hflat].
  { exists (events_max_entries - d + 2). split; [lia|].
    rewrite ring_byte_write, window_offset. fold d.
    replace (d + (events_max_entries - d + 2)) with (2 + 1 * events_max_entries)
      by lia.
    rewrite Z_mod_plus_full, Z.mod_small by lia.
    change (Z.to_nat 2) with 2%nat. now rewrite H0. }
  assert (Hd2 : d <= events_max_entries - 256).
  { pose proof (aligned_below d (events_max_entries - 248) Hd8 eq_refl). lia. }
  destruct (Hm w Hw) as (i & Hi & Hnul). exists i. split; [exact Hi|].
  rewrite ring_byte_write, Hoff by lia.
  destruct (bs !! Z.to_nat (d + i)) as [b|] eqn:Hb; [|exact Hnul].
  pose proof (lookup_lt_Some _ _ _ Hb) as Hin.
  rewrite Htail in Hb by lia. injection Hb as <-.
  rewrite Z2Nat.id by lia. rewrite <- Hnul.
  unfold ring_byte. f_equal.
  replace (p + (d + i)) with (p + i + d) by lia.
  unfold d. rewrite Zplus_mod_idemp_r. f_equal. lia.
Qed.

(** *** What the handlers write into a string field *)

Lemma store_nul_written x old cap :
  length old = cap -> (length x < cap)%nat ->
  field_written cap old (store_bytes (x ++ [NUL]) old) (length x).
Proof.
  intros Hold Hx. unfold field_written, store_bytes.
  split; [exact Hx|]. split; [|split].
  - rewrite !length_app, length_drop. simpl. lia.
  - rewrite <- app_assoc. simpl. now apply list_lookup_middle.
  - intros i Hi. rewrite lookup_app_r by (rewrite length_app; simpl; lia).
    rewrite lookup_drop. f_equal. rewrite length_app. simpl. lia.
Qed.

Lemma repeat_snoc (b : byte) n : repeat b (S n) = repeat b n ++ [b].
Proof. induction n as [|n IH]; simpl; [reflexivity|]. now rewrite <- IH. Qed.

Lemma get_current_comm_written task_comm old size :
  length old = Z.to_nat size -> 0 < size ->
  field_written (Z.to_nat size) old (bpf_get_current_comm task_comm old size)
    (Z.to_nat size - 1).
Proof.
  intros Hold Hsize. unfold bpf_get_current_comm.
  set (s := take (Z.to_nat (size - 1)) (cstr task_comm)).
  assert (Hs : (length s <= Z.to_nat size - 1)%nat)
    by (unfold s; rewrite length_take; lia).
  replace (Z.to_nat size - length s)%nat
    with (S (Z.to_nat size - 1 - length s)) by lia.
  rewrite repeat_snoc, app_assoc.
  set (x := s ++ repeat NUL (Z.to_nat size - 1 - length s)).
  assert (Hx : length x = (Z.to_nat size - 1)%nat)
    by (unfold x; rewrite length_app, repeat_length; lia).
  rewrite <- Hx. apply store_nul_written; [exact Hold|]. lia.
Qed.

Lemma probe_read_str_written m old size src :
  length old = Z.to_nat size -> 0 < size ->
  exists j,
    field_written (Z.to_nat size) old (snd (bpf_probe_read_str m old size src)) j.
Proof.
  intros Hold Hsize. unfold bpf_probe_read_str.
  destruct (Z.leb_spec size 0); [lia|].
  destruct (read_cstr m src (Z.to_nat size)) as [s|]; cbn [snd].
  - eexists. apply store_nul_written; [exact Hold|].
    rewrite length_take. lia.
  - assert (Hrep : repeat NUL (Z.to_nat size)
                   = repeat NUL (Z.to_nat size - 1) ++ [NUL])
      by (rewrite <- repeat_snoc; f_equal; lia).
    rewrite Hrep. eexists.
    apply store_nul_written; [exact Hold|]. rewrite repeat_length. lia.
Qed.

(** The event a firing commits, field by field against the slot. *)
Lemma handle_shape f t rb slot rb1 :
  bpf_ringbuf_reserve rb sizeof_process_event = Some (slot, rb1) ->
  length (comm slot) = 16%nat ->
  length (exe slot) = 256%nat ->
  exists e jc,
    snd (handle f t rb) = bpf_ringbuf_submit e rb1
    /\ field_written 16 (comm slot) (comm e) jc
    /\ args e = args slot
    /\ (exe e = exe slot
        \/ (jc = 15%nat /\ exists k, field_written 256 (exe slot) (exe e) k)).
Proof.
  intros Hres Hcomm Hexe.
  destruct f as [ctx|ctx|ctx]; simpl;
    [unfold trace_exec|unfold trace_exit|unfold trace_fork];
    rewrite Hres; cbn [snd].
  - destruct (probe_read_str_written (task_mem t) (exe slot) MAX_PATH_LEN
                (filename ctx) Hexe eq_refl) as (k & Hk).
    eexists; exists 15%nat. split; [reflexivity|]. cbn [comm exe args].
    split; [apply (get_current_comm_written _ _ TASK_COMM_LEN Hcomm eq_refl)|].
    split; [reflexivity|]. right. split; [reflexivity|]. now exists k.
  - eexists; exists 15%nat. split; [reflexivity|]. cbn [comm exe args].
    split; [apply (get_current_comm_written _ _ TASK_COMM_LEN Hcomm eq_refl)|].
    split; [reflexivity|]. now left.
  - destruct (probe_read_str_written (array_mem (parent_comm ctx)) (comm slot)
                TASK_COMM_LEN 0 Hcomm eq_refl) as (j & Hj).
    eexists; exists j. split; [reflexivity|]. cbn [comm exe args].
    split; [exact Hj|]. split; [reflexivity|]. now left.
Qed.

(** *** The bytes of a record *)

Section Record.
Variables (pg_off : Z) (e : process_event) (padding : list byte).
Hypothesis Hpad : length padding = 3%nat.
Hypothesis Hcomm : length (comm e) = 16%nat.
Hypothesis Hexe : length (exe e) = 256%nat.

Lemma record_header_nul : record_bytes pg_off e padding !! 2%nat = Some NUL.
Proof.
  unfold record_bytes. rewrite <- !app_assoc.
  rewrite lookup_app_l by (rewrite length_le_bytes; lia). reflexivity.
Qed.

Lemma record_lookup_comm i :
  (40 <= i < 56)%nat ->
  record_bytes pg_off e padding !! i = comm e !! (i - 40)%nat.
Proof.
  intros Hi. unfold record_bytes.
  rewrite lookup_app_r by (rewrite !length_app, !length_le_bytes, Hpad; lia).
  rewrite lookup_app_l by (rewrite !length_app, !length_le_bytes, Hpad; lia).
  f_equal. rewrite !length_app, !length_le_bytes, Hpad. lia.
Qed.

Lemma record_lookup_exe i :
  (56 <= i < 312)%nat ->
  record_bytes pg_off e padding !! i = exe e !! (i - 56)%nat.
Proof.
  intros Hi. unfold record_bytes.
  rewrite lookup_app_r by (rewrite !length_app, !length_le_bytes, Hpad; lia).
  rewrite lookup_app_r by (rewrite !length_app, !length_le_bytes, Hpad; lia).
  rewrite lookup_app_l by (rewrite !length_app, !length_le_bytes, Hpad; lia).
  f_equal. rewrite !length_app, !length_le_bytes, Hpad. lia.
Qed.

Lemma record_lookup_args i :
  (312 <= i)%nat ->
  record_bytes pg_off e padding !! i = args e !! (i - 312)%nat.
Proof.
  intros Hi. unfold record_bytes.
  rewrite lookup_app_r by (rewrite !length_app, !length_le_bytes, Hpad; lia).
  rewrite lookup_app_r by (rewrite !length_app, !length_le_bytes, Hpad; lia).
  rewrite lookup_app_r by (rewrite !length_app, !length_le_bytes, Hpad; lia).
  f_equal. rewrite !length_app, !length_le_bytes, Hpad. lia.
Qed.

Lemma length_record :
  length (args e) = 256%nat -> length (record_bytes pg_off e padding) = 568%nat.
Proof.
  intros Hargs. unfold record_bytes.
  rewrite !length_app, !length_le_bytes, Hpad, Hcomm, Hexe, Hargs. reflexivity.
Qed.
End Record.

Lemma slot_comm m p : comm (slot_at m p) = ring_read m (p + 40) 16.
Proof. unfold slot_at. cbn [comm]. f_equal. unfold BPF_RINGBUF_HDR_SZ, off_comm. lia. Qed.

Lemma slot_exe m p : exe (slot_at m p) = ring_read m (p + 56) 256.
Proof. unfold slot_at. cbn [exe]. f_equal. unfold BPF_RINGBUF_HDR_SZ, off_exe. lia. Qed.

Lemma slot_args m p : args (slot_at m p) = ring_read m (p + 312) 256.
Proof. unfold slot_at. cbn [args]. f_equal. unfold BPF_RINGBUF_HDR_SZ, off_args. lia. Qed.

(** The record of a firing against the memory it is written over: a NUL
    at [o2], and after it the bytes the memory held. *)
Lemma record_tail m p pg_off e padding jc (o2 : nat) :
  length padding = 3%nat ->
  field_written 16 (ring_read m (p + 40) 16) (comm e) jc ->
  args e = ring_read m (p + 312) 256 ->
  (exe e = ring_read m (p + 56) 256 /\ o2 = (40 + jc)%nat)
  \/ (jc = 15%nat
      /\ exists k, field_written 256 (ring_read m (p + 56) 256) (exe e) k
                   /\ o2 = (56 + k)%nat) ->
  record_bytes pg_off e padding !! o2 = Some NUL
  /\ (40 + jc <= o2 <= 40 + jc + 256)%nat
  /\ forall i, (o2 < i < 568)%nat ->
       record_bytes pg_off e padding !! i = Some (ring_byte m (p + Z.of_nat i)).
Proof.
  intros Hpad (Hjc & Hlc & Hnc & Htc) Ha Hexe.
  assert (Hargs : forall i, (312 <= i < 568)%nat ->
            record_bytes pg_off e padding !! i
            = Some (ring_byte m (p + Z.of_nat i))).
  { intros i Hi.
    assert (Hle : length (exe e) = 256%nat).
    { destruct Hexe as [[-> _]|(_ & k & (_ & Hl & _) & _)];
        [apply length_ring_read|exact Hl]. }
    rewrite (record_lookup_args pg_off e padding Hpad Hlc Hle) by lia.
    rewrite Ha, ring_read_lookup by lia. f_equal. f_equal. lia. }
  destruct Hexe as [[He ->]|(-> & k & (Hk & Hle & Hne & Hte) & ->)].
  - assert (Hle : length (exe e) = 256%nat)
      by (rewrite He; apply length_ring_read).
    split; [|split; [lia|]].
    + rewrite (record_lookup_comm pg_off e padding Hpad) by lia.
      replace (40 + jc - 40)%nat with jc by lia. exact Hnc.
    + intros i Hi.
      destruct (Nat.lt_ge_cases i 56) as [Hc|Hc];
        [|destruct (Nat.lt_ge_cases i 312) as [Hx|Hx]].
      * rewrite (record_lookup_comm pg_off e padding Hpad) by lia.
        rewrite Htc, ring_read_lookup by lia. f_equal. f_equal. lia.
      * rewrite (record_lookup_exe pg_off e padding Hpad Hlc) by lia.
        rewrite He, ring_read_lookup by lia. f_equal. f_equal. lia.
      * apply Hargs. lia.
  - split; [|split; [lia|]].
    + rewrite (record_lookup_exe pg_off e padding Hpad Hlc) by lia.
      replace (56 + k - 56)%nat with k by lia. exact Hne.
    + intros i Hi.
      destruct (Nat.lt_ge_cases i 312) as [Hx|Hx].
      * rewrite (record_lookup_exe pg_off e padding Hpad Hlc) by lia.
        rewrite Hte, ring_read_lookup by lia. f_equal. f_equal. lia.
      * apply Hargs. lia.
Qed.

(** *** The invariant of the ring *)

Lemma ring_step_invariant pg_off s op :
  no_long_run (rs_mem s) ->
  rb_producer_pos (rs_ring s) mod 8 = 0 ->
  Forall strings_terminated (committed (rs_ring s)) ->
  no_long_run (rs_mem (ring_step pg_off s op))
  /\ rb_producer_pos (rs_ring (ring_step pg_off s op)) mod 8 = 0
  /\ Forall strings_terminated (committed (rs_ring (ring_step pg_off s op))).
Proof.
  destruct s as [m ring]. cbn [rs_mem rs_ring]. intros Hm Hp Hold.
  destruct op as [f t|pos]; [|now repeat split].
  unfold ring_step. cbv zeta. cbn [rs_mem rs_ring].
  set (rb := with_stale (slot_at m) ring).
  change (rb_producer_pos rb) with (rb_producer_pos ring).
  set (p := rb_producer_pos ring) in *.
  destruct (bpf_ringbuf_reserve rb sizeof_process_event) as [[slot rb1]|] eqn:Hres.
  2:{ rewrite (ProcessMonitorExtra.handle_drops f t rb Hres).
      repeat split; assumption. }
  destruct (reserve_records _ _ _ _ Hres) as [Hrec Hslot].
  change (rb_stale rb (rb_producer_pos rb)) with (slot_at m p) in Hslot.
  destruct (SslMonitorExtra.reserve_accounting _ _ _ _ Hres) as (Hp1 & _).
  change (rb_producer_pos rb) with p in Hp1.
  change (round_up (sizeof_process_event + BPF_RINGBUF_HDR_SZ) 8) with 568 in Hp1.
  destruct (handle_shape f t rb slot rb1 Hres) as (e & jc & Hnext & Hc & Ha & He).
  { rewrite Hslot, slot_comm. apply length_ring_read. }
  { rewrite Hslot, slot_exe. apply length_ring_read. }
  rewrite Hslot, slot_comm in Hc. rewrite Hslot, slot_args in Ha.
  rewrite Hslot, slot_exe in He.
  rewrite Hnext, committed_submit, last_snoc.
  set (padding := ring_read m (p + BPF_RINGBUF_HDR_SZ + off_padding) 3).
  assert (Hpad : length padding = 3%nat) by apply length_ring_read.
  pose proof Hc as (Hjc & Hlc & Hnc & _).
  assert (Hle : length (exe e) = 256%nat).
  { destruct He as [->|(_ & k & (_ & Hl & _))]; [apply length_ring_read|exact Hl]. }
  assert (Hla : length (args e) = 256%nat)
    by (rewrite Ha; apply length_ring_read).
  split; [|split].
  - assert (Hshape : exists o2 : nat,
              (exe e = ring_read m (p + 56) 256 /\ o2 = (40 + jc)%nat)
              \/ (jc = 15%nat
                  /\ exists k,
                       field_written 256 (ring_read m (p + 56) 256) (exe e) k
                       /\ o2 = (56 + k)%nat)).
    { destruct He as [He|(Hj & k & Hk)].
      - exists (40 + jc)%nat. now left.
      - exists (56 + k)%nat. right. split; [exact Hj|]. now exists k. }
    destruct Hshape as (o2 & Hshape).
    destruct (record_tail m p (pg_off p) e padding jc o2 Hpad Hc Ha Hshape)
      as (Hn2 & Ho2 & Htail).
    apply (write_keeps_windows m p _ (40 + jc) o2 Hm Hp).
    + rewrite (length_record _ _ _ Hpad Hlc Hle Hla). unfold events_max_entries. lia.
    + now apply record_header_nul.
    + rewrite (record_lookup_comm _ _ _ Hpad) by lia.
      replace (40 + jc - 40)%nat with jc by lia. exact Hnc.
    + exact Hn2.
    + lia.
    + lia.
    + intros i Hi. apply Htail.
      rewrite (length_record _ _ _ Hpad Hlc Hle Hla) in Hi. lia.
  - cbn [bpf_ringbuf_submit rb_push rb_producer_pos]. rewrite Hp1.
    now apply aligned_add.
  - rewrite (reserve_committed _ _ _ _ Hres).
    change (committed rb) with (committed ring).
    apply Forall_app. split; [exact Hold|]. constructor; [|constructor].
    split; [|split].
    + apply (written_terminated 16 _ _ _ Hc).
    + destruct He as [->|(_ & k & Hk)].
      * apply window_terminated; [exact Hm|]. now apply aligned_add.
      * apply (written_terminated 256 _ _ _ Hk).
    + rewrite Ha. apply window_terminated; [exact Hm|]. now apply aligned_add.
Qed.

Lemma zero_mem_no_long_run : no_long_run zero_mem.
Proof. intros w _. exists 0. split; [lia|reflexivity]. Qed.

Lemma run_ring_invariant pg_off ops : forall s,
  no_long_run (rs_mem s) ->
  rb_producer_pos (rs_ring s) mod 8 = 0 ->
  Forall strings_terminated (committed (rs_ring s)) ->
  no_long_run (rs_mem (run_ring pg_off ops s))
  /\ rb_producer_pos (rs_ring (run_ring pg_off ops s)) mod 8 = 0
  /\ Forall strings_terminated (committed (rs_ring (run_ring pg_off ops s))).
Proof.
  induction ops as [|op ops IH]; intros s Hm Hp Hold; [now repeat split|].
  destruct (ring_step_invariant pg_off s op Hm Hp Hold) as (Hm' & Hp' & Hold').
  apply (IH _ Hm' Hp' Hold').
Qed.

(** The memory holds what was committed: read back from the record at
    position 0, the event of an exec firing on the fresh ring is the
    event the consumer sees, and the next record starts cleared. *)
Example committed_event_in_memory :
  let s := run_ring (fun _ => 3) [Fire (Exec {| filename := 8489 |}) sample_proc]
             fresh_ring in
  committed (rs_ring s) = [slot_at (rs_mem s) 0]
  /\ rb_producer_pos (rs_ring s) = record_size
  /\ cstr (exe (slot_at (rs_mem s) 0)) = [x2f; x2f; x2f]
  /\ pid (slot_at (rs_mem s) 0) = 100
  /\ args (slot_at (rs_mem s) record_size) = repeat x00 256.
Proof. vm_compute. repeat split; reflexivity. Qed.

(** C4: in a ring that starts cleared, whatever the tracepoints that
    fire, the tasks and strings they fire on, and the moves of the
    consumer, every ProcessEvent the handlers commit, of whatever kind,
    has its command name, its executable path and its argument string
    NUL-terminated within their capacities.  The handlers terminate what
    they write; what they leave unwritten is memory earlier records left,
    and no 256 bytes of it are without a NUL. *)
Theorem ring_strings_terminated pg_off ops :
  Forall strings_terminated (committed (rs_ring (run_ring pg_off ops fresh_ring))).
Proof.
  apply run_ring_invariant.
  - apply zero_mem_no_long_run.
  - reflexivity.
  - constructor.
Qed.

End ProcessRingSpec.
